(** * photo-gallery: the HTTP handlers of [server.js]

    A shallow embedding of the request handlers of [server.js] (both
    revisions of the file), of the fragment of JavaScript they rely on
    ([parseInt], [ToNumber], [Array.prototype.slice], [RegExp.prototype.test]
    for the patterns that occur), and of the library modules the handlers
    call ([lib/validate/*], [lib/photo-manager], [lib/thumbnailer]).

    Strings are Rocq strings: a character stands for a code unit below 256.
    Promises are settled values together with the trace of the accesses
    (catalog, thumbnail cache, outbound HTTP) made while they ran. *)

From Stdlib Require Import ZArith NArith Ascii String List Lia Bool.
From stdpp Require Import base list strings sorting pretty gmap.

Local Open Scope string_scope.
Local Open Scope list_scope.

(** ** The JavaScript fragment used by the handlers *)
Module Js.

(** Number values that occur in the handlers: integers and NaN.  A double is
    exact up to 2^53; above, [parseInt] and [ToNumber] round to a double that
    is still at least 2^53 (possibly Infinity).  The handlers only compare
    such numbers with array lengths and use them as [slice] bounds, both
    below 2^32, so the rounding cannot be observed (see [slice_end_clamp]);
    -0 is identified with 0 for the same reason. *)
Inductive Number := NaN | Int (z : Z).

Inductive Value :=
| Undefined
| Null
| Num (n : Number)
| Str (s : string).

(** A route or query parameter: absent, or the decoded string. *)
Definition param (p : option string) : Value :=
  match p with
  | None => Undefined
  | Some s => Str s
  end.

(** [v != null] *)
Definition notNullish (v : Value) : bool :=
  match v with
  | Undefined | Null => false
  | _ => true
  end.

(** [require("default-value")]: the value unless it is [null] or
    [undefined], else the fallback. *)
Definition defaultValue (v fallback : Value) : Value :=
  if notNullish v then v else fallback.

Definition code (c : ascii) : N := N_of_ascii c.

(** [[0-9]] *)
Definition isDigit (c : ascii) : bool :=
  (48 <=? code c)%N && (code c <=? 57)%N.

(** WhiteSpace and LineTerminator code units below 256. *)
Definition isWhiteSpace (c : ascii) : bool :=
  let n := code c in
  ((9 <=? n)%N && (n <=? 13)%N) || (n =? 32)%N || (n =? 160)%N.

Fixpoint allChars (p : ascii -> bool) (s : string) : bool :=
  match s with
  | EmptyString => true
  | String c s' => p c && allChars p s'
  end.

(** [/^[0-9]+$/.test(s)] *)
Definition isDigits (s : string) : bool :=
  match s with
  | EmptyString => false
  | _ => allChars isDigit s
  end.

(** The value of [c] as a digit in radix [R], when it is one. *)
Definition radixDigit (R : N) (c : ascii) : option N :=
  let n := code c in
  let d := if isDigit c then Some (n - 48)%N
           else if (97 <=? n)%N && (n <=? 122)%N then Some (n - 87)%N
           else if (65 <=? n)%N && (n <=? 90)%N then Some (n - 55)%N
           else None in
  match d with
  | Some k => if (k <? R)%N then Some k else None
  | None => None
  end.

(** The longest prefix of [s] made of radix-[R] digits, as digit values. *)
Fixpoint takeDigits (R : N) (s : string) : list N :=
  match s with
  | EmptyString => []
  | String c s' =>
      match radixDigit R c with
      | Some d => d :: takeDigits R s'
      | None => []
      end
  end.

Definition mathInt (R : N) (ds : list N) : N :=
  fold_left (fun acc d => (acc * R + d)%N) ds 0%N.

(** The number the leading decimal digits of [s] denote. *)
Definition decimal (s : string) : N := mathInt 10 (takeDigits 10 s).

Fixpoint trimStart (s : string) : string :=
  match s with
  | EmptyString => EmptyString
  | String c s' => if isWhiteSpace c then trimStart s' else s
  end.

Fixpoint trimEnd (s : string) : string :=
  match s with
  | EmptyString => EmptyString
  | String c s' =>
      match trimEnd s' with
      | EmptyString => if isWhiteSpace c then EmptyString else String c EmptyString
      | t => String c t
      end
  end.

Definition trim (s : string) : string := trimEnd (trimStart s).

(** [ToString]; the integers it is applied to are the literals [1] and [3]
    (exact digits are what JavaScript prints below 10^21). *)
Definition ToString (v : Value) : string :=
  match v with
  | Undefined => "undefined"
  | Null => "null"
  | Num NaN => "NaN"
  | Num (Int z) => pretty z
  | Str s => s
  end.

(** [parseInt(v)] with no radix argument. *)
Definition parseInt (v : Value) : Number :=
  let S0 := trimStart (ToString v) in
  let '(sign, S1) :=
    match S0 with
    | String "-" r => ((-1)%Z, r)
    | String "+" r => (1%Z, r)
    | _ => (1%Z, S0)
    end in
  let '(R, S2) :=
    match S1 with
    | String "0" (String "x" r) => (16%N, r)
    | String "0" (String "X" r) => (16%N, r)
    | _ => (10%N, S1)
    end in
  match takeDigits R S2 with
  | [] => NaN
  | ds => Int (sign * Z.of_N (mathInt R ds))
  end.

(** [StringToNumber] on the literals the development needs: the empty string
    (after trimming) and unsigned decimal integers.  [None] stands for the
    other forms (signs, fractions, exponents, radix prefixes, [Infinity],
    and the strings that yield NaN), which are not modelled. *)
Definition StringToNumber (s : string) : option Number :=
  let t := trim s in
  match t with
  | EmptyString => Some (Int 0)
  | _ => if allChars isDigit t
         then Some (Int (Z.of_N (decimal t)))
         else None
  end.

Definition ToNumber (v : Value) : option Number :=
  match v with
  | Undefined => Some NaN
  | Null => Some (Int 0)
  | Num n => Some n
  | Str s => StringToNumber s
  end.

Definition ToIntegerOrInfinity (n : Number) : Z :=
  match n with
  | NaN => 0%Z
  | Int z => z
  end.

(** A relative index of [slice], clamped into [0, len]. *)
Definition relativeIndex (len : nat) (n : Number) : nat :=
  let r := ToIntegerOrInfinity n in
  if (r <? 0)%Z then Z.to_nat (Z.max (Z.of_nat len + r) 0)
  else Z.to_nat (Z.min r (Z.of_nat len)).

(** [l.slice(start, end)], both bounds already numbers. *)
Definition slice {A} (l : list A) (start end_ : Number) : list A :=
  let k := relativeIndex (length l) start in
  let final := relativeIndex (length l) end_ in
  take (final - k) (drop k l).

(** [l[n]]: the element at index [n], [undefined] when there is none. *)
Definition index {A} (l : list A) (n : Number) : option A :=
  match n with
  | Int z => if (z <? 0)%Z then None else l !! Z.to_nat z
  | NaN => None
  end.

(** [a - b], [a + b], [a < b], [a > b] on numbers; a comparison with NaN is
    false. *)
Definition sub (a b : Number) : Number :=
  match a, b with
  | Int x, Int y => Int (x - y)
  | _, _ => NaN
  end.

Definition add (a b : Number) : Number :=
  match a, b with
  | Int x, Int y => Int (x + y)
  | _, _ => NaN
  end.

Definition lt (a b : Number) : bool :=
  match a, b with
  | Int x, Int y => (x <? y)%Z
  | _, _ => false
  end.

Definition gt (a b : Number) : bool := lt b a.

(** [hay.includes(needle)], which is also [/needle/.test(hay)] for a pattern
    without metacharacters. *)
Fixpoint includes (needle hay : string) : bool :=
  String.prefix needle hay ||
  match hay with
  | EmptyString => false
  | String _ hay' => includes needle hay'
  end.

End Js.

(** ** Errors, promises and the accesses they make *)

Inductive ErrorClass := ValidationError | ThumbnailError | PlainError.

Record Error := mkError { errorClass : ErrorClass; message : string }.

(** [err instanceof C] *)
Definition instanceof (e : Error) (C : ErrorClass) : bool :=
  match errorClass e, C with
  | ValidationError, ValidationError => true
  | ThumbnailError, ThumbnailError => true
  | PlainError, PlainError => true
  | _, _ => false
  end.

(** What a handler can reach outside the process: the photo root (through
    the photo manager), the thumbnail store and the originals (through the
    thumbnailer), and the wiki (through bhttp). *)
Inductive Access :=
| ReadCatalog
| ThumbnailStore (date filename : string)
| HttpGet (url : string).

Inductive Settled (A : Type) :=
| Resolved (a : A)
| Rejected (e : Error).
Arguments Resolved {A} a.
Arguments Rejected {A} e.

(** A promise that has run: the accesses made, in order, and how it settled.
    A synchronous [throw] inside [Promise.try] is a rejection. *)
Definition Promise (A : Type) : Type := (list Access * Settled A)%type.

Definition resolve {A} (a : A) : Promise A := ([], Resolved a).
Definition throw {A} (e : Error) : Promise A := ([], Rejected e).
Definition access {A} (ev : Access) (r : Settled A) : Promise A := ([ev], r).

(** [p.then(k)] *)
Definition andThen {A B} (p : Promise A) (k : A -> Promise B) : Promise B :=
  match p with
  | (t, Resolved a) => let '(t', r) := k a in (t ++ t', r)
  | (t, Rejected e) => (t, Rejected e)
  end.

(** [p.catch(h)] *)
Definition catch {A} (p : Promise A) (h : Error -> Promise A) : Promise A :=
  match p with
  | (t, Rejected e) => let '(t', r) := h e in (t ++ t', r)
  | (t, Resolved a) => (t, Resolved a)
  end.

#[global] Instance Promise_ret : MRet Promise := @resolve.
#[global] Instance Promise_bind : MBind Promise := fun A B k p => andThen p k.

Definition trace {A} (p : Promise A) : list Access := fst p.
Definition outcome {A} (p : Promise A) : Settled A := snd p.

(** ** lib/validate *)
Module Validate.

(** Modelled from the spec: [lib/validate/number] is not among the sources.
    A numeric parameter is a non-negative integer; the check is the one the
    earlier revision of the page route made inline, [/^[0-9]+$/]. *)
Definition isNumber (s : string) : bool := Js.isDigits s.

(** Modelled from the spec: [lib/validate/date-folder] is not among the
    sources.  A date key is a fixed-length calendar-date string,
    [YYYY-MM-DD]. *)
Definition isDateFolderName (s : string) : bool :=
  match s with
  | String y1 (String y2 (String y3 (String y4 (String d1
      (String m1 (String m2 (String d2 (String a1 (String a2 EmptyString))))))))) =>
      Js.isDigit y1 && Js.isDigit y2 && Js.isDigit y3 && Js.isDigit y4 &&
      Ascii.eqb d1 "-" &&
      Js.isDigit m1 && Js.isDigit m2 &&
      Ascii.eqb d2 "-" &&
      Js.isDigit a1 && Js.isDigit a2
  | _ => false
  end.

(** Modelled from the spec: the safe filename characters. *)
Definition isSafeChar (c : ascii) : bool :=
  let n := Js.code c in
  Js.isDigit c
  || ((97 <=? n)%N && (n <=? 122)%N)
  || ((65 <=? n)%N && (n <=? 90)%N)
  || Ascii.eqb c "." || Ascii.eqb c "_" || Ascii.eqb c "-".

(** Modelled from the spec: [lib/validate/photo-filename] is not among the
    sources.  A filename is restricted to safe filename characters, with no
    path separator and no traversal sequence [..]. *)
Definition isPhotoFilename (s : string) : bool :=
  match s with
  | EmptyString => false
  | _ => Js.allChars isSafeChar s && negb (Js.includes ".." s)
  end.

(** Modelled from the spec: a validator returns normally or throws a
    [ValidationError]. *)
Definition check (ok : bool) (msg : string) : Promise unit :=
  if ok then resolve tt else throw (mkError ValidationError msg).

(** Modelled from the spec: [require("./lib/validate/number")]; the text of
    the message is not specified. *)
Definition validateNumber (s : string) : Promise unit :=
  check (isNumber s) "Must be a number".

(** Modelled from the spec: [require("./lib/validate/date-folder")]. *)
Definition validateDateFolderName (s : string) : Promise unit :=
  check (isDateFolderName s) "Must be a date folder name".

(** Modelled from the spec: [require("./lib/validate/photo-filename")]. *)
Definition validatePhotoFilename (s : string) : Promise unit :=
  check (isPhotoFilename s) "Must be a photo filename".

End Validate.

(** ** lib/photo-manager *)

Module DateFolder.

(** Modelled from the spec: the parsed date value of a date folder, usable
    for ordering and for formatted display ([lib/photo-manager] is not among
    the sources). *)
Record Moment := { year : N; month : N; day : N }.

(** Modelled from the spec: the value dates are ordered by. *)
Definition valueOf (m : Moment) : N :=
  (year m * 10000 + month m * 100 + day m)%N.

(** Modelled from the spec: decimal digits, left-padded with zeros. *)
Definition pad (width : nat) (n : N) : string :=
  let s := pretty n in
  string_of_list_ascii (replicate (width - String.length s) "0"%char) +:+ s.

(** Modelled from the spec: [momentDate.format("YYYY-MM-DD")]. *)
Definition format (m : Moment) : string :=
  pad 4 (year m) +:+ "-" +:+ pad 2 (month m) +:+ "-" +:+ pad 2 (day m).

(** Modelled from the spec: the date value of a [YYYY-MM-DD] key. *)
Definition parse (key : string) : Moment :=
  {| year := Js.decimal (substring 0 4 key);
     month := Js.decimal (substring 5 2 key);
     day := Js.decimal (substring 8 2 key) |}.

(** Modelled from the spec: a DateFolder, its canonical folder key and its
    parsed date value; the key determines the value. *)
Record t := { date : string; momentDate : Moment }.

(** Modelled from the spec: the DateFolder of a folder key. *)
Definition make (key : string) : t :=
  {| date := key; momentDate := parse key |}.

(** Modelled from the spec: the value a DateFolder is ordered by. *)
Definition value (d : t) : N := valueOf (momentDate d).

End DateFolder.

Module PhotoManager.

(** Modelled from the spec: what the filesystem scanner yields for the photo
    root, the date-named subdirectories with the filenames in each. *)
Definition Listing : Type := list (string * list string).

(** Modelled from the spec: a Photo, identified by its DateFolder and its
    filename. *)
Record Picture := { date : DateFolder.t; filename : string }.

(** Modelled from the spec: a DateFolder with its Photos, the element of a
    CatalogPage. *)
Record DateEntry := { folder : DateFolder.t; pictures : list Picture }.

(** Modelled from the spec: a Photo with its previous/next links. *)
Record Photo :=
  { picture : Picture; previous : option Picture; next : option Picture }.

(** Modelled from the spec: the options of [createPhotoManager]; the photo
    path is given by what a scan of it yields, [None] when it cannot be
    read. *)
Record Options := { photoPath : option Listing; paginationThreshold : nat }.

(** Modelled from the spec: within a DateFolder the Photos are ordered by
    filename (lexical). *)
Definition entryOf (dir : string * list string) : DateEntry :=
  let d := DateFolder.make (fst dir) in
  {| folder := d;
     pictures := map (fun f => {| date := d; filename := f |})
                     (merge_sort String.le (snd dir)) |}.

(** Modelled from the spec: the DateFolder contains at least one Photo. *)
Definition hasPictures (e : DateEntry) : bool :=
  match pictures e with
  | [] => false
  | _ => true
  end.

(** Modelled from the spec: the display order of dates, latest first. *)
Definition recentFirst (a b : DateEntry) : Prop :=
  (DateFolder.value (folder b) <= DateFolder.value (folder a))%N.

#[global] Instance recentFirst_dec : RelDecision recentFirst.
Proof. intros a b. unfold recentFirst. apply _. Defined.

(** Modelled from the spec: the DateFolders containing at least one Photo,
    sorted chronologically, the most recent first. *)
Definition datesWithPictures (l : Listing) : list DateEntry :=
  merge_sort recentFirst (filter (fun e => hasPictures e) (map entryOf l)).

(** Modelled from the spec: consecutive groups of [size] elements; [cur] is
    the group being filled. *)
Fixpoint chunks {A} (size : nat) (cur : list A) (l : list A) : list (list A) :=
  match l with
  | [] => match cur with [] => [] | _ => [cur] end
  | x :: l' =>
      let cur' := cur ++ [x] in
      if (length cur' =? size)%nat then cur' :: chunks size [] l'
      else chunks size cur' l'
  end.

(** Modelled from the spec: [listDatesPaginated], the pages of
    [paginationThreshold] dates. *)
Definition paginatedDatesWithPictures (o : Options) (l : Listing)
  : list (list DateEntry) :=
  chunks (paginationThreshold o) [] (datesWithPictures l).

(** Modelled from the spec: the single total order of the Photos, by
    DateFolder first and by filename within a date. *)
Definition chronological (l : Listing) : list Picture :=
  concat (map pictures (reverse (datesWithPictures l))).

(** Modelled from the spec: all Photos in reverse-chronological order. *)
Definition allPictures (l : Listing) : list Picture :=
  reverse (chronological l).

(** Modelled from the spec: the Photo identified by (date key, filename). *)
Definition isPicture (dateKey name : string) (p : Picture) : bool :=
  String.eqb (DateFolder.date (date p)) dateKey && String.eqb (filename p) name.

(** Modelled from the spec: the Photo with its immediate neighbours in
    [order]; [prev] is the element just before the part still to search. *)
Fixpoint locate (dateKey name : string) (prev : option Picture)
    (order : list Picture) : option Photo :=
  match order with
  | [] => None
  | p :: rest =>
      if isPicture dateKey name p
      then Some {| picture := p; previous := prev; next := head rest |}
      else locate dateKey name (Some p) rest
  end.

(** Modelled from the spec: [getPhoto] on a scanned listing; absent when
    there is no such Photo. *)
Definition findPicture (l : Listing) (dateKey name : string) : option Photo :=
  locate dateKey name None (chronological l).

(** Modelled from the spec: every operation scans the photo root anew and
    fails when the root cannot be read. *)
Definition scan (o : Options) : Promise Listing :=
  access ReadCatalog
    match photoPath o with
    | Some l => Resolved l
    | None => Rejected (mkError PlainError "ENOENT: no such file or directory, scandir")
    end.

(** Modelled from the spec: [photoManager.getPaginatedDatesWithPictures()]. *)
Definition getPaginatedDatesWithPictures (o : Options)
  : Promise (list (list DateEntry)) :=
  l ← scan o; mret (paginatedDatesWithPictures o l).

(** Modelled from the spec: [photoManager.getPictures()]. *)
Definition getPictures (o : Options) : Promise (list Picture) :=
  l ← scan o; mret (allPictures l).

(** Modelled from the spec: [photoManager.getPicture(date, filename)]. *)
Definition getPicture (o : Options) (dateKey name : string)
  : Promise (option Photo) :=
  l ← scan o; mret (findPicture l dateKey name).

End PhotoManager.

(** ** lib/thumbnailer *)

Module Thumbnailer.

(** Modelled from the spec: image data, a blob. *)
Abbreviation Data := string (only parsing).

(** Modelled from the spec: a ThumbnailKey, the pair (date key, filename)
    that addresses an original and its thumbnail. *)
Abbreviation Key := (string * string)%type (only parsing).

(** Modelled from the spec: an original file as the generator sees it; an
    image is given by the thumbnail the generator makes of it
    ([lib/thumbnailer] is not among the sources). *)
Inductive Source := Unreadable | Undecodable | Image (resized : Data).

(** Modelled from the spec: the originals present under the photo root and
    the thumbnails present in the cache store. *)
Record State := { originals : gmap Key Source; store : gmap Key Data }.

(** Modelled from the spec: the generator fails with a [ThumbnailError] that
    carries the text of the underlying cause; a file that cannot be opened is
    reported by the resizing tool as "Unable to open file". *)
Definition generate (original : option Source) : Settled Data :=
  match original with
  | None =>
      Rejected (mkError ThumbnailError "Unable to open file (No such file or directory)")
  | Some Unreadable =>
      Rejected (mkError ThumbnailError "Unable to open file (Permission denied)")
  | Some Undecodable =>
      Rejected (mkError ThumbnailError "No decode delegate for this image format")
  | Some (Image d) => Resolved d
  end.

(** Modelled from the spec: [getThumbnail], for one caller at a time:
    validate the key, serve the cached thumbnail if there is one, else
    generate it from the original and persist it. *)
Definition getThumbnail (st : State) (k : Key) : State * Settled Data :=
  if negb (Validate.isDateFolderName (fst k) && Validate.isPhotoFilename (snd k))
  then (st, Rejected (mkError ValidationError "Must be a thumbnail key"))
  else
    match store st !! k with
    | Some d => (st, Resolved d)
    | None =>
        match generate (originals st !! k) with
        | Resolved d =>
            ({| originals := originals st; store := <[k := d]> (store st) |},
             Resolved d)
        | Rejected e => (st, Rejected e)
        end
    end.

(** Modelled from the spec: the thumbnailer created over the files [st], as
    the routes call it; what it settles to for a date key and a filename. *)
Definition create (st : State) (dateKey name : string) : Settled Data :=
  snd (getThumbnail st (dateKey, name)).

End Thumbnailer.

(** ** server.js *)

Module Server.

Import PhotoManager.

(** The fields of [config.json] the routes read. *)
Record Config :=
  { pathPrefix : string;
    paginationThreshold : nat;
    mediawikiUrl : string;
    mediawikiCookie : string }.

(** What [bhttp.get] resolves to, as far as [verifyMediaWikiAuth] looks. *)
Record HttpResult := { requestPath : string; redirectHistory : list string }.

(** The world a request runs in: the configuration, the content of
    [config.pictureFolder], what the thumbnailer made by [createThumbnailer]
    settles to for a date and a filename, and the wiki's answer to a request
    for a URL with a [Cookie] header. *)
Record Env :=
  { config : Config;
    pictureFolder : option Listing;
    createThumbnailer : string -> string -> Settled Thumbnailer.Data;
    wiki : string -> string -> Settled HttpResult }.

Inductive Route :=
| MediaWikiAuth
| Latest (amount : option string)
| Index (page : option string)
| View (date filename : string)
| Thumbnails (date filename : string).

Record Request :=
  { protocol : string;
    host : string;
    cookies : list (string * string);
    route : Route }.

Record LatestEntry :=
  { date : string; filename : string; url : string; thumbnail : string }.

Inductive Response :=
| Send (status : nat) (body : string)
| Json (latest : list LatestEntry)
| RenderIndex (dates : option (list DateEntry)) (currentPage : Js.Number)
    (totalPages : nat)
| RenderView (photo : Photo) (previousPhoto nextPhoto : option Picture)
    (absoluteThumbnail : string)
| Pipe (stream : Thumbnailer.Data)
| Reported (err : Error).

Definition notFound : Response := Send 404 "404 not found".

Definition generationFailure : Response :=
  Send 500 "Failed to generate thumbnail - not an image file?".

(** [createPhotoManager({photoPath, paginationThreshold})] *)
Definition photoManager (env : Env) : Options :=
  {| photoPath := pictureFolder env;
     PhotoManager.paginationThreshold := paginationThreshold (config env) |}.

(** [thumbnailer(date, filename)] *)
Definition thumbnailer (env : Env) (dateKey name : string)
  : Promise Thumbnailer.Data :=
  access (ThumbnailStore dateKey name) (createThumbnailer env dateKey name).

(** [if (p != null) { validate(p); }] *)
Definition whenPresent (p : option string) (validate : string -> Promise unit)
  : Promise unit :=
  match p with
  | Some s => validate s
  | None => resolve tt
  end.

Fixpoint concatCookies (cs : list (string * string)) : string :=
  match cs with
  | [] => ""
  | (name, val) :: cs' => name +:+ "=" +:+ val +:+ ";" +:+ concatCookies cs'
  end.

Fixpoint cookie (name : string) (cs : list (string * string)) : option string :=
  match cs with
  | [] => None
  | (n, v) :: cs' => if String.eqb n name then Some v else cookie name cs'
  end.

Definition verifyMediaWikiAuth (env : Env) (cs : list (string * string))
  : Promise bool :=
  let target := mediawikiUrl (config env) +:+ "Special:Preferences" in
  r ← access (HttpGet target) (wiki env target (concatCookies cs));
  mret ((length (redirectHistory r) =? 0)%nat
        && negb (Js.includes "Special%3AUserLogin" (requestPath r))).

(** The [Promise.try] block of [router.get("/mediaWikiAuth")]. *)
Definition mediaWikiAuthTry (env : Env) (req : Request) : Promise bool :=
  match cookie (mediawikiCookie (config env) +:+ "_UserName") (cookies req) with
  | Some _ => verifyMediaWikiAuth env (cookies req)
  | None => resolve false
  end.

Definition mediaWikiAuthThen (auth : bool) : Promise Response :=
  if auth then mret (Send 200 "Authenticated")
  else mret (Send 401 "No, or invalid MediaWiki cookies found").

(** [router.get("/mediaWikiAuth")] *)
Definition mediaWikiAuth (env : Env) (req : Request) : Promise Response :=
  mediaWikiAuthTry env req ≫= mediaWikiAuthThen.

Definition latestEntry (env : Env) (p : Picture) : LatestEntry :=
  let d := PhotoManager.date p in
  let prefix := pathPrefix (config env) in
  {| date := DateFolder.format (DateFolder.momentDate d);
     filename := PhotoManager.filename p;
     url := prefix +:+ "/view/" +:+ DateFolder.date d +:+ "/" +:+ PhotoManager.filename p;
     thumbnail := prefix +:+ "/thumbnails/" +:+ DateFolder.date d +:+ "/"
                  +:+ PhotoManager.filename p |}.

(** The [Promise.try] block of [router.get("/latest")]. *)
Definition latestTry (env : Env) (amount : option string)
  : Promise (list Picture) :=
  whenPresent amount Validate.validateNumber;;
  getPictures (photoManager env).

(** The pictures [router.get("/latest")] puts in its response. *)
Definition latestSelection (pictures : list Picture) (amount : option string)
  : list Picture :=
  let amount' := Js.parseInt (Js.defaultValue (Js.param amount) (Js.Num (Js.Int 3))) in
  Js.slice pictures (Js.Int 0) amount'.

Definition latestThen (env : Env) (amount : option string)
    (pictures : list Picture) : Promise Response :=
  mret (Json (map (latestEntry env) (latestSelection pictures amount))).

(** [router.get("/latest")] *)
Definition latest (env : Env) (amount : option string) : Promise Response :=
  latestTry env amount ≫= latestThen env amount.

(** The [Promise.try] block of [router.get("/:page?")]. *)
Definition indexTry (env : Env) (page : option string)
  : Promise (list (list DateEntry)) :=
  whenPresent page Validate.validateNumber;;
  getPaginatedDatesWithPictures (photoManager env).

Definition indexThen (page : option string) (dates : list (list DateEntry))
  : Promise Response :=
  let pageParam := Js.defaultValue (Js.param page) (Js.Num (Js.Int 1)) in
  let pageNumber := Js.sub (Js.parseInt pageParam) (Js.Int 1) in
  if Js.lt pageNumber (Js.Int 0)
     || Js.gt pageNumber (Js.Int (Z.of_nat (length dates) - 1))
  then mret notFound
  else mret (RenderIndex (Js.index dates pageNumber)
               (Js.add pageNumber (Js.Int 1)) (length dates)).

(** [router.get("/:page?")] *)
Definition index (env : Env) (page : option string) : Promise Response :=
  indexTry env page ≫= indexThen page.

(** The [Promise.try] block of [router.get("/view/:date/:filename")]. *)
Definition viewTry (env : Env) (dateKey name : string)
  : Promise (option Photo) :=
  Validate.validateDateFolderName dateKey;;
  Validate.validatePhotoFilename name;;
  getPicture (photoManager env) dateKey name.

Definition absoluteThumbnail (env : Env) (req : Request) (p : Picture) : string :=
  protocol req +:+ "://" +:+ host req +:+ pathPrefix (config env)
  +:+ "/thumbnails/" +:+ DateFolder.date (PhotoManager.date p)
  +:+ "/" +:+ PhotoManager.filename p.

Definition viewThen (env : Env) (req : Request) (photo : option Photo)
  : Promise Response :=
  match photo with
  | None => mret notFound
  | Some ph =>
      mret (RenderView ph (previous ph) (next ph)
              (absoluteThumbnail env req (picture ph)))
  end.

(** [router.get("/view/:date/:filename")] *)
Definition view (env : Env) (req : Request) (dateKey name : string)
  : Promise Response :=
  viewTry env dateKey name ≫= viewThen env req.

(** The [Promise.try] block of [router.get("/thumbnails/:date/:filename")]. *)
Definition thumbnailsTry (env : Env) (dateKey name : string)
  : Promise Thumbnailer.Data :=
  Validate.validateDateFolderName dateKey;;
  Validate.validatePhotoFilename name;;
  thumbnailer env dateKey name.

Definition thumbnailsThen (stream : Thumbnailer.Data) : Promise Response :=
  mret (Pipe stream).

(** The [.catch] of the thumbnail route. *)
Definition thumbnailsCatch (err : Error) : Promise Response :=
  if Js.includes "Unable to open file" (message err) then mret notFound
  else throw err.

(** [router.get("/thumbnails/:date/:filename")] *)
Definition thumbnails (env : Env) (dateKey name : string) : Promise Response :=
  catch (thumbnailsTry env dateKey name ≫= thumbnailsThen) thumbnailsCatch.

Definition router (env : Env) (req : Request) : Promise Response :=
  match route req with
  | MediaWikiAuth => mediaWikiAuth env req
  | Latest amount => latest env amount
  | Index page => index env page
  | View d f => view env req d f
  | Thumbnails d f => thumbnails env d f
  end.

(** The error a promise was rejected with. *)
Definition rejection {A} (p : Promise A) : option Error :=
  match outcome p with
  | Rejected e => Some e
  | Resolved _ => None
  end.

(** The error raised inside the [Promise.try] block of the request's route,
    when there is one. *)
Definition raised (env : Env) (req : Request) : option Error :=
  match route req with
  | MediaWikiAuth => rejection (mediaWikiAuthTry env req)
  | Latest amount => rejection (latestTry env amount)
  | Index page => rejection (indexTry env page)
  | View d f => rejection (viewTry env d f)
  | Thumbnails d f => rejection (thumbnailsTry env d f)
  end.

(** The error-handling middleware, [app.use((err, req, res, next) => ...)]. *)
Definition errorMiddleware (err : Error) : Response :=
  if instanceof err ValidationError then notFound
  else if instanceof err ThumbnailError then generationFailure
  else Reported err.

(** A request through the router and, when the route's promise is rejected,
    the error-handling middleware. *)
Definition app (env : Env) (req : Request) : list Access * Response :=
  match router env req with
  | (t, Resolved r) => (t, r)
  | (t, Rejected e) => (t, errorMiddleware e)
  end.

Definition respond (env : Env) (req : Request) : Response := snd (app env req).
Definition accesses (env : Env) (req : Request) : list Access := fst (app env req).

(** The status line of a response; a reported error has none. *)
Definition status (r : Response) : option nat :=
  match r with
  | Send st _ => Some st
  | Json _ | RenderIndex _ _ _ | RenderView _ _ _ _ | Pipe _ => Some 200%nat
  | Reported _ => None
  end.

End Server.

(** ** server.js, the earlier revision *)

Module ServerOld.

Import PhotoManager.

Definition latestEntry (p : Picture) : Server.LatestEntry :=
  let d := PhotoManager.date p in
  {| Server.date := DateFolder.format (DateFolder.momentDate d);
     Server.filename := PhotoManager.filename p;
     Server.url := "/photos/" +:+ DateFolder.date d +:+ "/" +:+ PhotoManager.filename p;
     Server.thumbnail := "/thumbnails/" +:+ DateFolder.date d +:+ "/"
                         +:+ PhotoManager.filename p |}.

(** The pictures the earlier [router.get("/latest")] puts in its response:
    the raw parameter goes to [slice], which converts it with [ToNumber];
    [None] when the conversion is outside the modelled forms. *)
Definition latestSelection (pictures : list Picture) (amount : option string)
  : option (list Picture) :=
  let amount' := Js.defaultValue (Js.param amount) (Js.Num (Js.Int 3)) in
  n ← Js.ToNumber amount';
  Some (Js.slice pictures (Js.Int 0) n).

(** [router.get("/latest")], earlier revision: no validation, no [parseInt]. *)
Definition latest (env : Server.Env) (amount : option string)
  : Promise (option Server.Response) :=
  pictures ← getPictures (Server.photoManager env);
  mret (sel ← latestSelection pictures amount;
        Some (Server.Json (map latestEntry sel))).

(** [createPhotoManager({photoPath: config.pictureFolder,
    paginationThreshold: 10})]: the page size is fixed in this revision. *)
Definition photoManager (env : Server.Env) : Options :=
  {| photoPath := Server.pictureFolder env; paginationThreshold := 10 |}.

(** The [.then] of the earlier [router.get("/:page?")]: the digit test is
    made here, on the parameter or its default, together with the range
    test. *)
Definition indexThen (page : option string) (dates : list (list DateEntry))
  : Promise Server.Response :=
  let pageParam := Js.defaultValue (Js.param page) (Js.Num (Js.Int 1)) in
  let pageNumber := Js.sub (Js.parseInt pageParam) (Js.Int 1) in
  if negb (Js.isDigits (Js.ToString pageParam))
     || Js.lt pageNumber (Js.Int 0)
     || Js.gt pageNumber (Js.Int (Z.of_nat (length dates) - 1))
  then mret Server.notFound
  else mret (Server.RenderIndex (Js.index dates pageNumber)
               (Js.add pageNumber (Js.Int 1)) (length dates)).

(** [router.get("/:page?")], earlier revision: nothing is validated before
    the catalog is read. *)
Definition index (env : Server.Env) (page : option string)
  : Promise Server.Response :=
  getPaginatedDatesWithPictures (photoManager env) ≫= indexThen page.

(** What the earlier revision answers: a response the two revisions share,
    or the picture page, which it renders without [absoluteThumbnail]. *)
Inductive Response :=
| Common (r : Server.Response)
| RenderView (photo : Photo) (previousPhoto nextPhoto : option Picture).

(** The [Promise.try] block of the earlier [router.get("/view/:date/:filename")]. *)
Definition viewTry (env : Server.Env) (dateKey name : string)
  : Promise (option Photo) :=
  Validate.validateDateFolderName dateKey;;
  Validate.validatePhotoFilename name;;
  getPicture (photoManager env) dateKey name.

Definition viewThen (photo : option Photo) : Promise Response :=
  match photo with
  | None => mret (Common Server.notFound)
  | Some ph => mret (RenderView ph (previous ph) (next ph))
  end.

(** [router.get("/view/:date/:filename")], earlier revision. *)
Definition view (env : Server.Env) (dateKey name : string) : Promise Response :=
  viewTry env dateKey name ≫= viewThen.

(** [router.get("/thumbnails/:date/:filename")], earlier revision: the same
    text as in the current one. *)
Definition thumbnails (env : Server.Env) (dateKey name : string)
  : Promise Server.Response :=
  catch (Server.thumbnailsTry env dateKey name ≫= Server.thumbnailsThen)
        Server.thumbnailsCatch.

(** The routes of the earlier revision. *)
Inductive Route :=
| Index (page : option string)
| Latest (amount : option string)
| View (date filename : string)
| Thumbnails (date filename : string).

(** The response of a route; [None] where [latest] is outside the modelled
    forms of [ToNumber]. *)
Definition router (env : Server.Env) (r : Route) : Promise (option Response) :=
  match r with
  | Index page => resp ← index env page; mret (Some (Common resp))
  | Latest amount => resp ← latest env amount; mret (Common <$> resp)
  | View d f => resp ← view env d f; mret (Some resp)
  | Thumbnails d f => resp ← thumbnails env d f; mret (Some (Common resp))
  end.

(** The error-handling middleware of the earlier revision: it knows no
    [ThumbnailError]. *)
Definition errorMiddleware (err : Error) : Server.Response :=
  if instanceof err ValidationError then Server.notFound
  else Server.Reported err.

Definition app (env : Server.Env) (r : Route) : list Access * option Response :=
  match router env r with
  | (t, Resolved resp) => (t, resp)
  | (t, Rejected e) => (t, Some (Common (errorMiddleware e)))
  end.

End ServerOld.

(** ** The route tables *)

Module Routes.

(** [s.split("/")] *)
Fixpoint split (s : string) : list string :=
  match s with
  | EmptyString => [EmptyString]
  | String c s' =>
      if Ascii.eqb c "/" then EmptyString :: split s'
      else match split s' with
           | seg :: segs => String c seg :: segs
           | [] => [String c EmptyString]
           end
  end.

(** Route regexps carry the [i] flag: ASCII letters match in either case. *)
Definition lower (c : ascii) : ascii :=
  let n := Js.code c in
  if (65 <=? n)%N && (n <=? 90)%N then ascii_of_N (n + 32) else c.

Fixpoint equalsIgnoreCase (a b : string) : bool :=
  match a, b with
  | EmptyString, EmptyString => true
  | String x a', String y b' => Ascii.eqb (lower x) (lower y) && equalsIgnoreCase a' b'
  | _, _ => false
  end.

Definition isEmpty (s : string) : bool :=
  match s with
  | EmptyString => true
  | _ => false
  end.

(** Routing is not strict: one trailing slash is ignored. *)
Fixpoint dropLastEmpty (segs : list string) : list string :=
  match segs with
  | [] => []
  | s :: rest =>
      match rest with
      | [] => if isEmpty s then [] else [s]
      | _ => s :: dropLastEmpty rest
      end
  end.

(** The segments of a request path: what stands between its slashes. *)
Definition segments (path : string) : option (list string) :=
  match path with
  | String "/" rest => Some (dropLastEmpty (split rest))
  | _ => None
  end.

(** A segment of a route path: literal text, a parameter [:name], or an
    optional parameter [:name?]. *)
Inductive Segment :=
| Lit (text : string)
| Param (name : string)
| Optional (name : string).

(** The string without its last character, when that is [?]. *)
Fixpoint beforeQuestionMark (s : string) : option string :=
  match s with
  | EmptyString => None
  | String c EmptyString => if Ascii.eqb c "?" then Some EmptyString else None
  | String c s' => String c <$> beforeQuestionMark s'
  end.

Definition parseSegment (s : string) : Segment :=
  match s with
  | String ":" name =>
      match beforeQuestionMark name with
      | Some n => Optional n
      | None => Param name
      end
  | _ => Lit s
  end.

(** A route path as written in [router.get], e.g. ["/view/:date/:filename"]. *)
Definition parsePattern (pattern : string) : list Segment :=
  match pattern with
  | String "/" rest => map parseSegment (split rest)
  | _ => []
  end.

(** The parameters a pattern captures from the segments of a path; a
    parameter takes one non-empty segment, an optional one may be missing. *)
Fixpoint matchPattern (pat : list Segment) (segs : list string)
  : option (list (string * string)) :=
  match pat, segs with
  | [], [] => Some []
  | [Optional _], [] => Some []
  | Lit text :: pat', s :: segs' =>
      if equalsIgnoreCase s text then matchPattern pat' segs' else None
  | Param name :: pat', s :: segs' =>
      if isEmpty s then None
      else cons (name, s) <$> matchPattern pat' segs'
  | Optional name :: pat', s :: segs' =>
      if isEmpty s then None
      else cons (name, s) <$> matchPattern pat' segs'
  | _, _ => None
  end.

(** The first route of the table, in registration order, whose path matches. *)
Fixpoint firstMatch {H} (table : list (string * H)) (segs : list string)
  : option (H * list (string * string)) :=
  match table with
  | [] => None
  | (pattern, h) :: table' =>
      match matchPattern (parsePattern pattern) segs with
      | Some params => Some (h, params)
      | None => firstMatch table' segs
      end
  end.

(** [req.params[name]] *)
Fixpoint lookupParam (name : string) (params : list (string * string))
  : option string :=
  match params with
  | [] => None
  | (n, v) :: params' =>
      if String.eqb n name then Some v else lookupParam name params'
  end.

Inductive Handler :=
| mediaWikiAuth
| latest
| index
| view
| thumbnails.

(** The [router.get] calls of the current revision, in source order. *)
Definition table : list (string * Handler) :=
  [("/mediaWikiAuth", mediaWikiAuth);
   ("/latest", latest);
   ("/:page?", index);
   ("/view/:date/:filename", view);
   ("/thumbnails/:date/:filename", thumbnails)].

(** The [router.get] calls of the earlier revision, in source order. *)
Definition tableOld : list (string * Handler) :=
  [("/:page?", index);
   ("/latest", latest);
   ("/view/:date/:filename", view);
   ("/thumbnails/:date/:filename", thumbnails)].

(** Where a GET request goes: to a route, to none (the framework answers),
    or outside the model, for a path with a percent-encoded segment or
    without leading slash. *)
Inductive Dispatch (R : Type) :=
| Unmodelled
| NoRoute
| To (r : R).
Arguments Unmodelled {R}.
Arguments NoRoute {R}.
Arguments To {R} r.

Definition plain (s : string) : bool := negb (Js.includes "%" s).

Definition route (h : Handler) (params : list (string * string))
    (amount : option string) : Dispatch Server.Route :=
  match h with
  | mediaWikiAuth => To Server.MediaWikiAuth
  | latest => To (Server.Latest amount)
  | index => To (Server.Index (lookupParam "page" params))
  | view =>
      match lookupParam "date" params, lookupParam "filename" params with
      | Some d, Some f => To (Server.View d f)
      | _, _ => NoRoute
      end
  | thumbnails =>
      match lookupParam "date" params, lookupParam "filename" params with
      | Some d, Some f => To (Server.Thumbnails d f)
      | _, _ => NoRoute
      end
  end.

Definition routeOld (h : Handler) (params : list (string * string))
    (amount : option string) : Dispatch ServerOld.Route :=
  match h with
  | mediaWikiAuth => NoRoute
  | latest => To (ServerOld.Latest amount)
  | index => To (ServerOld.Index (lookupParam "page" params))
  | view =>
      match lookupParam "date" params, lookupParam "filename" params with
      | Some d, Some f => To (ServerOld.View d f)
      | _, _ => NoRoute
      end
  | thumbnails =>
      match lookupParam "date" params, lookupParam "filename" params with
      | Some d, Some f => To (ServerOld.Thumbnails d f)
      | _, _ => NoRoute
      end
  end.

Definition dispatchWith {R} (tbl : list (string * Handler))
    (mk : Handler -> list (string * string) -> option string -> Dispatch R)
    (path : string) (amount : option string) : Dispatch R :=
  match segments path with
  | None => Unmodelled
  | Some segs =>
      if forallb plain segs then
        match firstMatch tbl segs with
        | Some (h, params) => mk h params amount
        | None => NoRoute
        end
      else Unmodelled
  end.

(** The route of a GET request for [path] with query parameter [amount],
    current revision. *)
Definition dispatch : string -> option string -> Dispatch Server.Route :=
  dispatchWith table route.

(** The same for the earlier revision. *)
Definition dispatchOld : string -> option string -> Dispatch ServerOld.Route :=
  dispatchWith tableOld routeOld.

(** A parameter as the routes expect it: not empty, without a slash. *)
Definition clean (s : string) : Prop :=
  isEmpty s = false /\ Js.includes "/" s = false.

(** The characters no client escapes in a path: letters, digits, [-], [.],
    [_] and [~]. *)
Definition isUnreserved (c : ascii) : bool :=
  let n := Js.code c in
  Js.isDigit c
  || ((97 <=? n)%N && (n <=? 122)%N)
  || ((65 <=? n)%N && (n <=? 90)%N)
  || Ascii.eqb c "-" || Ascii.eqb c "." || Ascii.eqb c "_" || Ascii.eqb c "~".

(** A name that can stand in a link as it is: not empty, unreserved
    characters only. *)
Definition linkable (s : string) : bool :=
  negb (isEmpty s) && Js.allChars isUnreserved s.

End Routes.

(** ** A small catalog to evaluate the definitions on *)

Module Sample.

Definition listing : PhotoManager.Listing :=
  [("2023-01-01", ["b.jpg"; "a.jpg"]);
   ("2023-01-02", []);
   ("2023-01-03", ["c.jpg"])].

Definition files : Thumbnailer.State :=
  {| Thumbnailer.originals :=
       {[ ("2023-01-01", "a.jpg") := Thumbnailer.Image "thumbnail of a";
          ("2023-01-01", "b.jpg") := Thumbnailer.Undecodable;
          ("2023-01-03", "c.jpg") := Thumbnailer.Unreadable ]};
     Thumbnailer.store := ∅ |}.

Definition env : Server.Env :=
  {| Server.config :=
       {| Server.pathPrefix := "/gallery";
          Server.paginationThreshold := 1;
          Server.mediawikiUrl := "https://wiki.example/";
          Server.mediawikiCookie := "wiki" |};
     Server.pictureFolder := Some listing;
     Server.createThumbnailer := Thumbnailer.create files;
     Server.wiki := fun _ _ => Rejected (mkError PlainError "ECONNREFUSED") |}.

Definition request (r : Server.Route) : Server.Request :=
  {| Server.protocol := "https";
     Server.host := "photos.example";
     Server.cookies := [];
     Server.route := r |}.

End Sample.

(** The sample world with pages of 10 dates, the page size built into the
    earlier revision. *)
Definition sampleTen : Server.Env :=
  {| Server.config :=
       {| Server.pathPrefix := "/gallery";
          Server.paginationThreshold := 10;
          Server.mediawikiUrl := "https://wiki.example/";
          Server.mediawikiCookie := "wiki" |};
     Server.pictureFolder := Some Sample.listing;
     Server.createThumbnailer := Server.createThumbnailer Sample.env;
     Server.wiki := Server.wiki Sample.env |}.

(** The sample world with a photo root that cannot be read. *)
Definition sampleUnreadable : Server.Env :=
  {| Server.config := Server.config Sample.env;
     Server.pictureFolder := None;
     Server.createThumbnailer := Server.createThumbnailer Sample.env;
     Server.wiki := Server.wiki Sample.env |}.

(** A photo root with five pictures on three dates, more than the route for
    the latest pictures lists when no amount is given. *)
Definition fivePictures : PhotoManager.Listing :=
  [("2023-01-01", ["b.jpg"; "a.jpg"]);
   ("2022-12-31", ["z.jpg"]);
   ("2023-01-02", []);
   ("2023-01-03", ["c.jpg"; "d.jpg"])].

Definition sampleFive : Server.Env :=
  {| Server.config := Server.config Sample.env;
     Server.pictureFolder := Some fivePictures;
     Server.createThumbnailer := Server.createThumbnailer Sample.env;
     Server.wiki := Server.wiki Sample.env |}.

(** ** Notions used to state the properties *)

Module Notions.

Import PhotoManager.

(** A numeric parameter that passes the route's check: absent, or accepted
    by the number validator. *)
Definition acceptedParam (p : option string) : bool :=
  match p with
  | None => true
  | Some s => Validate.isNumber s
  end.

(** The amount a request for the latest pictures asks for. *)
Definition requestedAmount (p : option string) : N :=
  match p with
  | None => 3%N
  | Some s => Js.decimal s
  end.

(** The page number an accepted parameter asks for, 1 when it is absent. *)
Definition requestedPage (page : option string) : N :=
  match page with
  | Some s => Js.decimal s
  | None => 1%N
  end.

(** A string with a path separator or a traversal sequence in it. *)
Definition hasTraversal (s : string) : bool :=
  Js.includes ".." s || Js.includes "/" s || Js.includes "\" s.

(** A route whose parameters do not pass the validation the route makes. *)
Definition malformed (r : Server.Route) : bool :=
  match r with
  | Server.Latest (Some s) | Server.Index (Some s) => negb (Validate.isNumber s)
  | Server.View d f | Server.Thumbnails d f =>
      negb (Validate.isDateFolderName d && Validate.isPhotoFilename f)
  | _ => false
  end.

(** The characters of a date key. *)
Definition isDateChar (c : ascii) : bool := Js.isDigit c || Ascii.eqb c "-".

(** What identifies a picture: the key of its date folder and its filename. *)
Definition pictureKey (p : Picture) : string * string :=
  (DateFolder.date (date p), filename p).

(** A listing as a filesystem gives it: the subdirectories have distinct
    names, each a date key, and the filenames within one are distinct. *)
Definition WellFormed (l : Listing) : Prop :=
  NoDup (map fst l)
  /\ Forall (fun dir => Validate.isDateFolderName (fst dir) = true
                        /\ NoDup (snd dir)) l.

(** [a] is displayed before [b]: it is the strictly later date. *)
Definition laterDate (a b : DateEntry) : Prop :=
  (DateFolder.value (folder b) < DateFolder.value (folder a))%N.

(** [p] comes before [q] in the chronological order of the pictures: on an
    earlier date, or on the same date with a smaller filename. *)
Definition pictureBefore (p q : Picture) : Prop :=
  (DateFolder.value (date p) < DateFolder.value (date q))%N
  \/ (date p = date q /\ String.le (filename p) (filename q)
      /\ filename p <> filename q).

(** [p] is a picture of the collection: its date folder is a subdirectory of
    the photo root and its filename is a file of that subdirectory. *)
Definition inCatalog (l : Listing) (p : Picture) : Prop :=
  exists dir, dir ∈ l /\ date p = DateFolder.make (fst dir) /\ filename p ∈ snd dir.

(** The URL [verifyMediaWikiAuth] asks the wiki for. *)
Definition preferencesUrl (env : Server.Env) : string :=
  Server.mediawikiUrl (Server.config env) +:+ "Special:Preferences".

(** The name of the cookie that triggers the verification. *)
Definition userNameCookie (env : Server.Env) : string :=
  Server.mediawikiCookie (Server.config env) +:+ "_UserName".

Definition authenticated : Server.Response := Server.Send 200 "Authenticated".

Definition unauthenticated : Server.Response :=
  Server.Send 401 "No, or invalid MediaWiki cookies found".

(** The one resource the route of a request reaches for. *)
Definition resource (env : Server.Env) (r : Server.Route) : Access :=
  match r with
  | Server.MediaWikiAuth => HttpGet (preferencesUrl env)
  | Server.Latest _ | Server.Index _ | Server.View _ _ => ReadCatalog
  | Server.Thumbnails d f => ThumbnailStore d f
  end.

(** A response of the current revision as the earlier one gives it: the
    picture page without its [absoluteThumbnail]. *)
Definition withoutAbsoluteThumbnail (r : Server.Response) : ServerOld.Response :=
  match r with
  | Server.RenderView ph pr nx _ => ServerOld.RenderView ph pr nx
  | _ => ServerOld.Common r
  end.

#[global] Instance WellFormed_dec (l : Listing) : Decision (WellFormed l).
Proof. unfold WellFormed. apply _. Defined.

End Notions.

(** * Properties *)

(** ** The JavaScript fragment *)

Section JsFacts.

Import Js.

Lemma isDigit_code c : isDigit c = true -> (48 <= code c <= 57)%N.
Proof. unfold isDigit. intros H. apply andb_prop in H as [H1 H2].
  apply N.leb_le in H1. apply N.leb_le in H2. lia. Qed.

Lemma isDigit_not_space c : isDigit c = true -> isWhiteSpace c = false.
Proof.
  intros H. apply isDigit_code in H. unfold isWhiteSpace.
  repeat match goal with
  | |- context [(?a <=? ?b)%N] => destruct (N.leb_spec a b)
  | |- context [(?a =? ?b)%N] => destruct (N.eqb_spec a b)
  end; simpl; try reflexivity; lia.
Qed.

Lemma radixDigit_10 c :
  isDigit c = true -> radixDigit 10 c = Some (code c - 48)%N.
Proof.
  intros H. unfold radixDigit. rewrite H. pose proof (isDigit_code c H).
  destruct (N.ltb_spec (code c - 48) 10); [reflexivity | lia].
Qed.

(** On a string of digits, [takeDigits] keeps every character. *)
Lemma takeDigits_digits s :
  allChars isDigit s = true ->
  takeDigits 10 s = map (fun c => (code c - 48)%N) (list_ascii_of_string s).
Proof.
  induction s as [|c s IH]; simpl; [reflexivity|].
  intros H. apply andb_prop in H as [Hc Hs].
  rewrite (radixDigit_10 c Hc), (IH Hs). reflexivity.
Qed.

Lemma mathInt_acc R ds acc :
  fold_left (fun a d => (a * R + d)%N) ds acc
  = (acc * R ^ N.of_nat (length ds) + mathInt R ds)%N.
Proof.
  unfold mathInt. revert acc. induction ds as [|d ds IH]; intros acc.
  - simpl. lia.
  - cbn [fold_left length]. rewrite IH, (IH (0 * R + d)%N).
    rewrite Nat2N.inj_succ, N.pow_succ_r'. lia.
Qed.

Lemma mathInt_cons R d ds :
  mathInt R (d :: ds) = (d * R ^ N.of_nat (length ds) + mathInt R ds)%N.
Proof.
  unfold mathInt at 1. cbn [fold_left]. rewrite mathInt_acc. lia.
Qed.

End JsFacts.

Section ParseFacts.

Import Js.

Lemma digits_nonempty c s :
  isDigit c = true -> takeDigits 10 (String c s) <> [].
Proof. intros H. simpl. rewrite (radixDigit_10 c H). discriminate. Qed.

Lemma isDigit_x : isDigit "x" = false /\ isDigit "X" = false.
Proof. split; reflexivity. Qed.

(** [parseInt] on a string that starts with a digit and does not start with
    a hexadecimal prefix reads the leading decimal digits. *)
Lemma parseInt_leading_digit c s :
  isDigit c = true ->
  (forall r, s <> String "x" r) -> (forall r, s <> String "X" r) ->
  parseInt (Str (String c s)) = Int (Z.of_N (decimal (String c s))).
Proof.
  intros Hc Hx HX.
  assert (Hne := digits_nonempty c s Hc).
  unfold parseInt, decimal. cbn [ToString trimStart].
  rewrite (isDigit_not_space c Hc).
  destruct c as [b0 b1 b2 b3 b4 b5 b6 b7].
  destruct b0, b1, b2, b3, b4, b5, b6, b7; try discriminate Hc;
    try (destruct (takeDigits 10 _) eqn:E; [congruence | f_equal; lia]).
  (* the character 0 *)
  destruct s as [|c2 r].
  - reflexivity.
  - destruct c2 as [a0 a1 a2 a3 a4 a5 a6 a7].
    destruct a0, a1, a2, a3, a4, a5, a6, a7;
      try (exfalso; eapply Hx; reflexivity);
      try (exfalso; eapply HX; reflexivity);
      (destruct (takeDigits 10 _) eqn:E; [congruence | f_equal; lia]).
Qed.

Lemma parseInt_digits s :
  isDigits s = true -> parseInt (Str s) = Int (Z.of_N (decimal s)).
Proof.
  destruct s as [|c s]; [discriminate|]. cbn [isDigits allChars].
  intros H. apply andb_prop in H as [Hc Hs].
  apply parseInt_leading_digit; [exact Hc | |]; intros r ->;
    cbn [allChars] in Hs; apply andb_prop in Hs as [Hx _]; discriminate Hx.
Qed.

Lemma trimStart_digits s : allChars isDigit s = true -> trimStart s = s.
Proof.
  destruct s as [|c s]; [reflexivity|]. cbn [allChars trimStart].
  intros H. apply andb_prop in H as [Hc _].
  rewrite (isDigit_not_space c Hc). reflexivity.
Qed.

Lemma trimEnd_digits s : allChars isDigit s = true -> trimEnd s = s.
Proof.
  induction s as [|c s IH]; [reflexivity|]. cbn [allChars trimEnd].
  intros H. apply andb_prop in H as [Hc Hs]. rewrite (IH Hs).
  destruct s; [rewrite (isDigit_not_space c Hc)|]; reflexivity.
Qed.

Lemma ToNumber_digits s :
  isDigits s = true -> ToNumber (Str s) = Some (Int (Z.of_N (decimal s))).
Proof.
  intros H. assert (Hall : allChars isDigit s = true).
  { destruct s; [discriminate | exact H]. }
  cbn [ToNumber]. unfold StringToNumber, trim.
  rewrite (trimStart_digits s Hall), (trimEnd_digits s Hall).
  destruct s; [discriminate|]. rewrite Hall. reflexivity.
Qed.

(** [l.slice(0, n)] for a non-negative integer [n] is the first [n]
    elements, all of [l] when there are fewer. *)
Lemma slice_from_0 {A} (l : list A) (z : Z) :
  (0 <= z)%Z -> slice l (Int 0) (Int z) = take (Z.to_nat z) l.
Proof.
  intros Hz. unfold slice, relativeIndex. cbn [ToIntegerOrInfinity].
  destruct (Z.ltb_spec 0 0); [lia|].
  destruct (Z.ltb_spec z 0); [lia|].
  replace (Z.to_nat (Z.min 0 (Z.of_nat (length l)))) with 0%nat by lia.
  rewrite Nat.sub_0_r, drop_0.
  destruct (Z.le_gt_cases z (Z.of_nat (length l))).
  - rewrite Z.min_l by lia. reflexivity.
  - rewrite Z.min_r by lia. rewrite Nat2Z.id.
    rewrite (take_ge l (length l)) by lia.
    rewrite (take_ge l (Z.to_nat z)) by lia. reflexivity.
Qed.

(** The end bound of [slice] only matters up to the length of the list:
    two bounds at or above it select the same elements. *)
Lemma slice_end_clamp {A} (l : list A) (a b : Z) :
  (Z.of_nat (length l) <= a)%Z -> (Z.of_nat (length l) <= b)%Z ->
  slice l (Int 0) (Int a) = slice l (Int 0) (Int b).
Proof.
  intros Ha Hb. rewrite !slice_from_0 by lia.
  rewrite (take_ge l (Z.to_nat a)), (take_ge l (Z.to_nat b)) by lia.
  reflexivity.
Qed.

Lemma slice_from_0_length {A} (l : list A) (z : Z) :
  (0 <= z)%Z ->
  length (slice l (Int 0) (Int z)) = Nat.min (Z.to_nat z) (length l).
Proof. intros Hz. rewrite slice_from_0 by lia. apply length_take. Qed.

End ParseFacts.

Section DecimalFacts.

Import Js.

Lemma decimal_cons c s :
  isDigit c = true -> allChars isDigit s = true ->
  decimal (String c s)
  = ((code c - 48) * 10 ^ N.of_nat (String.length s) + decimal s)%N.
Proof.
  intros Hc Hs. unfold decimal.
  rewrite (takeDigits_digits (String c s)), (takeDigits_digits s);
    [| exact Hs | cbn [allChars]; rewrite Hc, Hs; reflexivity].
  cbn [list_ascii_of_string map]. rewrite mathInt_cons, length_map.
  replace (length (list_ascii_of_string s)) with (String.length s); [reflexivity|].
  clear. induction s; simpl; congruence.
Qed.

Lemma pretty_N_char_digit x :
  (x < 10)%N ->
  isDigit (pretty_N_char x) = true /\ (code (pretty_N_char x) - 48)%N = x.
Proof.
  intros Hx.
  assert (x = 0 \/ x = 1 \/ x = 2 \/ x = 3 \/ x = 4 \/ x = 5 \/ x = 6
          \/ x = 7 \/ x = 8 \/ x = 9)%N as Hcases by lia.
  repeat destruct Hcases as [-> | Hcases]; try subst x; split; reflexivity.
Qed.

Lemma pretty_N_go_decimal x s :
  allChars isDigit s = true ->
  allChars isDigit (pretty_N_go x s) = true
  /\ decimal (pretty_N_go x s)
     = (x * 10 ^ N.of_nat (String.length s) + decimal s)%N.
Proof.
  revert s. induction (N.lt_wf_0 x) as [x _ IH]. intros s Hs.
  destruct (N.eq_dec x 0%N) as [-> | Hx].
  - rewrite pretty_N_go_0. split; [exact Hs | lia].
  - rewrite pretty_N_go_step by lia.
    destruct (pretty_N_char_digit (x `mod` 10)%N) as [Hd Hv].
    { apply N.mod_lt. lia. }
    assert (Hs' : allChars isDigit (String (pretty_N_char (x `mod` 10)%N) s) = true).
    { cbn [allChars]. rewrite Hd, Hs. reflexivity. }
    destruct (IH (x `div` 10)%N) with (s := String (pretty_N_char (x `mod` 10)%N) s)
      as [Hall Hval].
    { apply N.div_lt; lia. }
    { exact Hs'. }
    split; [exact Hall|].
    rewrite Hval, (decimal_cons _ _ Hd Hs), Hv.
    cbn [String.length]. rewrite Nat2N.inj_succ, N.pow_succ_r'.
    pose proof (N.div_mod x 10). nia.
Qed.

(** The decimal numeral of a natural number is a non-empty string of digits
    and denotes that number. *)
Lemma pretty_N_isDigits (n : N) :
  isDigits (pretty n) = true /\ decimal (pretty n) = n.
Proof.
  unfold pretty, pretty_N. destruct (decide (n = 0%N)) as [-> | Hn].
  - split; reflexivity.
  - destruct (pretty_N_go_decimal n "" eq_refl) as [Hall Hval].
    split.
    + unfold isDigits. destruct (pretty_N_go n "") eqn:E; [|exact Hall].
      exfalso. cbn in Hval. lia.
    + rewrite Hval. cbn. lia.
Qed.

End DecimalFacts.

(** ** Promises *)

Section PromiseFacts.

Lemma andThen_resolve {A B} (a : A) (k : A -> Promise B) :
  andThen (resolve a) k = k a.
Proof. unfold andThen, resolve. destruct (k a). reflexivity. Qed.

Lemma andThen_throw {A B} (e : Error) (k : A -> Promise B) :
  andThen (throw e) k = throw e.
Proof. reflexivity. Qed.

Lemma check_true msg : Validate.check true msg = resolve tt.
Proof. reflexivity. Qed.

Lemma check_false msg :
  Validate.check false msg = throw (mkError ValidationError msg).
Proof. reflexivity. Qed.

End PromiseFacts.

(** ** The route for the latest pictures *)

Section LatestFacts.

Import PhotoManager Server Notions.

Lemma getPictures_run (o : Options) :
  getPictures o =
  match photoPath o with
  | Some l => ([ReadCatalog], Resolved (allPictures l))
  | None => ([ReadCatalog],
             Rejected (mkError PlainError "ENOENT: no such file or directory, scandir"))
  end.
Proof. unfold getPictures, scan. destruct (photoPath o); reflexivity. Qed.

Lemma latestTry_accepted env amount :
  acceptedParam amount = true ->
  latestTry env amount = getPictures (photoManager env).
Proof.
  intros H. unfold latestTry, whenPresent.
  destruct amount as [s|]; cbn in H.
  - unfold Validate.validateNumber. rewrite H, check_true.
    exact (andThen_resolve tt (fun _ => getPictures (photoManager env))).
  - exact (andThen_resolve tt (fun _ => getPictures (photoManager env))).
Qed.

Lemma latestTry_refused env s :
  Validate.isNumber s = false ->
  latestTry env (Some s) = throw (mkError ValidationError "Must be a number").
Proof.
  intros H. unfold latestTry, whenPresent, Validate.validateNumber.
  rewrite H, check_false. reflexivity.
Qed.

Lemma parseInt_default_3 : Js.parseInt (Js.Num (Js.Int 3)) = Js.Int 3.
Proof. vm_compute. reflexivity. Qed.

Lemma parseInt_default_1 : Js.parseInt (Js.Num (Js.Int 1)) = Js.Int 1.
Proof. vm_compute. reflexivity. Qed.

(** The amount the route reads from an accepted parameter. *)
Lemma parseInt_accepted amount (fallback : N) :
  acceptedParam amount = true ->
  (fallback = 1 \/ fallback = 3)%N ->
  Js.parseInt (Js.defaultValue (Js.param amount) (Js.Num (Js.Int (Z.of_N fallback))))
  = Js.Int (Z.of_N (match amount with Some s => Js.decimal s | None => fallback end)).
Proof.
  intros H Hf. destruct amount as [s|]; cbn in H |- *.
  - apply parseInt_digits. exact H.
  - destruct Hf as [-> | ->]; vm_compute; reflexivity.
Qed.

Lemma latestSelection_accepted pictures amount :
  acceptedParam amount = true ->
  latestSelection pictures amount
  = take (N.to_nat (requestedAmount amount)) pictures.
Proof.
  intros H. unfold latestSelection.
  change (Js.Num (Js.Int 3)) with (Js.Num (Js.Int (Z.of_N 3))).
  rewrite (parseInt_accepted amount 3 H) by (right; reflexivity).
  rewrite slice_from_0 by lia. f_equal. unfold requestedAmount. lia.
Qed.

Lemma old_latestSelection_accepted pictures amount :
  acceptedParam amount = true ->
  ServerOld.latestSelection pictures amount
  = Some (take (N.to_nat (requestedAmount amount)) pictures).
Proof.
  intros H. unfold ServerOld.latestSelection.
  destruct amount as [s|]; cbn in H.
  - cbn [Js.param Js.defaultValue Js.notNullish].
    rewrite (ToNumber_digits s H). cbn [mbind option_bind].
    rewrite slice_from_0 by lia. do 2 f_equal. unfold requestedAmount. lia.
  - cbn [Js.param Js.defaultValue Js.notNullish Js.ToNumber mbind option_bind].
    rewrite slice_from_0 by lia. reflexivity.
Qed.

End LatestFacts.

Section LatestRoute.

Import PhotoManager Server Notions.

Lemma app_latest_accepted env req amount :
  route req = Latest amount -> acceptedParam amount = true ->
  app env req =
  ([ReadCatalog],
   match pictureFolder env with
   | Some l =>
       Json (map (latestEntry env)
                 (take (N.to_nat (requestedAmount amount)) (allPictures l)))
   | None =>
       Reported (mkError PlainError "ENOENT: no such file or directory, scandir")
   end).
Proof.
  intros Hr Ha. unfold app, router. rewrite Hr. unfold latest.
  rewrite (latestTry_accepted env amount Ha), getPictures_run.
  cbn [photoManager photoPath]. destruct (pictureFolder env) as [l|].
  - cbn. rewrite (latestSelection_accepted _ amount Ha). reflexivity.
  - reflexivity.
Qed.

Lemma app_latest_refused env req s :
  route req = Latest (Some s) -> Validate.isNumber s = false ->
  app env req = ([], notFound)
  /\ raised env req = Some (mkError ValidationError "Must be a number").
Proof.
  intros Hr Hs. unfold app, router, raised. rewrite Hr. unfold latest.
  rewrite (latestTry_refused env s Hs). split; reflexivity.
Qed.

Lemma not_a_number s :
  s = "" \/ (exists t, s = String "-" t) \/ Js.allChars Js.isDigit s = false ->
  Validate.isNumber s = false.
Proof.
  unfold Validate.isNumber, Js.isDigits.
  intros [-> | [[t ->] | H]]; [reflexivity | reflexivity |].
  destruct s; [reflexivity | exact H].
Qed.

(** C8: on the route for the latest pictures, an amount that is present but
    empty, negative (written with a minus sign) or not made of decimal
    digits raises a [ValidationError] and the request makes no access at all;
    the numeral of a natural number, and any non-empty string of digits, is
    accepted: validation returns, the catalog is read, and the response
    lists that many of the latest pictures. *)
Theorem latest_amount_validated env req s :
  route req = Latest (Some s) ->
  ((s = "" \/ (exists t, s = String "-" t) \/ Js.allChars Js.isDigit s = false) ->
     (exists e, raised env req = Some e /\ errorClass e = ValidationError)
     /\ accesses env req = []
     /\ respond env req = notFound)
  /\ (((exists n : N, s = pretty n) \/ Js.isDigits s = true) ->
     outcome (Validate.validateNumber s) = Resolved tt
     /\ accesses env req = [ReadCatalog]
     /\ (forall e, raised env req = Some e -> errorClass e <> ValidationError)
     /\ (forall l, pictureFolder env = Some l ->
           respond env req =
           Json (map (latestEntry env)
                     (take (N.to_nat (Js.decimal s)) (allPictures l))))
     /\ (forall n : N, s = pretty n -> Js.decimal s = n)).
Proof.
  intros Hr. split.
  - intros Hbad. apply not_a_number in Hbad.
    destruct (app_latest_refused env req s Hr Hbad) as [Happ Hraised].
    unfold accesses, respond. rewrite Happ. repeat split; try reflexivity.
    eexists. split; [exact Hraised | reflexivity].
  - intros Hgood.
    assert (Hs : Validate.isNumber s = true).
    { destruct Hgood as [[n ->] | H]; [apply pretty_N_isDigits | exact H]. }
    pose proof (app_latest_accepted env req (Some s) Hr Hs) as Happ.
    unfold accesses, respond. rewrite Happ. cbn [fst snd].
    split; [|split; [|split; [|split]]].
    + unfold Validate.validateNumber. rewrite Hs. reflexivity.
    + reflexivity.
    + intros e. unfold raised. rewrite Hr.
      rewrite (latestTry_accepted env (Some s) Hs), getPictures_run.
      cbn [photoManager photoPath]. destruct (pictureFolder env); cbn.
      * discriminate.
      * intros [= <-]. discriminate.
    + intros l ->. reflexivity.
    + intros n ->. apply pretty_N_isDigits.
Qed.

Lemma latest_amount_validated_witness :
  (exists e, raised Sample.env (Sample.request (Latest (Some "-2"))) = Some e
             /\ errorClass e = ValidationError)
  /\ accesses Sample.env (Sample.request (Latest (Some "-2"))) = []
  /\ respond Sample.env (Sample.request (Latest (Some "-2"))) = notFound.
Proof.
  apply (latest_amount_validated Sample.env
           (Sample.request (Latest (Some "-2"))) "-2").
  - reflexivity.
  - right. left. exists "2". reflexivity.
Defined.

(** C10: for every list of pictures and every amount that is absent or a
    string of decimal digits accepted by the number validator, the earlier
    handler (raw amount passed to [slice]) and the current handler
    ([parseInt] after validation) select the same pictures; run against the
    same photo root, both respond with the entries of one and the same
    selection, or both fail with the same error. *)
Theorem latest_old_new_same_selection env amount pictures :
  acceptedParam amount = true ->
  ServerOld.latestSelection pictures amount
  = Some (Server.latestSelection pictures amount)
  /\ match outcome (Server.latest env amount),
           outcome (ServerOld.latest env amount) with
     | Resolved new, Resolved old =>
         exists sel,
           new = Json (map (latestEntry env) sel)
           /\ old = Some (Json (map ServerOld.latestEntry sel))
     | Rejected e, Rejected e' => e = e'
     | _, _ => False
     end.
Proof.
  intros Ha. split.
  - rewrite old_latestSelection_accepted, latestSelection_accepted by exact Ha.
    reflexivity.
  - unfold latest, ServerOld.latest.
    rewrite (latestTry_accepted env amount Ha), getPictures_run.
    cbn [photoManager photoPath]. destruct (pictureFolder env) as [l|]; cbn.
    + exists (latestSelection (allPictures l) amount). split; [reflexivity|].
      rewrite old_latestSelection_accepted, latestSelection_accepted by exact Ha.
      reflexivity.
    + reflexivity.
Qed.

Lemma latest_old_new_same_selection_witness :
  ServerOld.latestSelection (allPictures Sample.listing) (Some "2")
  = Some (Server.latestSelection (allPictures Sample.listing) (Some "2")).
Proof.
  apply (latest_old_new_same_selection Sample.env (Some "2")
           (allPictures Sample.listing)).
  reflexivity.
Defined.

End LatestRoute.

(** ** The paginated listing route *)

Section IndexRoute.

Import PhotoManager Server Notions.

Lemma getPaginated_run (o : Options) :
  getPaginatedDatesWithPictures o =
  match photoPath o with
  | Some l => ([ReadCatalog], Resolved (paginatedDatesWithPictures o l))
  | None => ([ReadCatalog],
             Rejected (mkError PlainError "ENOENT: no such file or directory, scandir"))
  end.
Proof.
  unfold getPaginatedDatesWithPictures, scan. destruct (photoPath o); reflexivity.
Qed.

Lemma indexTry_accepted env page :
  acceptedParam page = true ->
  indexTry env page = getPaginatedDatesWithPictures (photoManager env).
Proof.
  intros H. unfold indexTry, whenPresent.
  destruct page as [s|]; cbn in H.
  - unfold Validate.validateNumber. rewrite H, check_true.
    exact (andThen_resolve tt
             (fun _ => getPaginatedDatesWithPictures (photoManager env))).
  - exact (andThen_resolve tt
             (fun _ => getPaginatedDatesWithPictures (photoManager env))).
Qed.

Lemma indexTry_refused env s :
  Validate.isNumber s = false ->
  indexTry env (Some s) = throw (mkError ValidationError "Must be a number").
Proof.
  intros H. unfold indexTry, whenPresent, Validate.validateNumber.
  rewrite H, check_false. reflexivity.
Qed.

Lemma indexThen_accepted page (dates : list (list DateEntry)) :
  acceptedParam page = true ->
  indexThen page dates =
  if ((requestedPage page =? 0) || (N.of_nat (length dates) <? requestedPage page))%N
  then resolve notFound
  else resolve (RenderIndex (dates !! (N.to_nat (requestedPage page) - 1)%nat)
                  (Js.Int (Z.of_N (requestedPage page))) (length dates)).
Proof.
  intros Ha. unfold indexThen.
  change (Js.Num (Js.Int 1)) with (Js.Num (Js.Int (Z.of_N 1))).
  rewrite (parseInt_accepted page 1 Ha) by (left; reflexivity).
  fold (requestedPage page). set (n := requestedPage page).
  cbn [Js.sub Js.lt Js.gt Js.add Js.index].
  destruct (N.eqb_spec n 0) as [Hn | Hn].
  - destruct (Z.ltb_spec (Z.of_N n - 1) 0); [reflexivity | lia].
  - destruct (Z.ltb_spec (Z.of_N n - 1) 0); [lia|].
    cbn [orb].
    destruct (N.ltb_spec (N.of_nat (length dates)) n);
      destruct (Z.ltb_spec (Z.of_nat (length dates) - 1) (Z.of_N n - 1));
      try lia; [reflexivity|].
    unfold mret, Promise_ret. do 2 f_equal; f_equal; lia.
Qed.

Lemma app_index_accepted env req page l :
  route req = Index page -> acceptedParam page = true ->
  pictureFolder env = Some l ->
  let dates := paginatedDatesWithPictures (photoManager env) l in
  app env req =
  ([ReadCatalog],
   if ((requestedPage page =? 0) || (N.of_nat (length dates) <? requestedPage page))%N
   then notFound
   else RenderIndex (dates !! (N.to_nat (requestedPage page) - 1)%nat)
          (Js.Int (Z.of_N (requestedPage page))) (length dates)).
Proof.
  intros Hr Ha Hl dates. unfold app, router. rewrite Hr. unfold index.
  rewrite (indexTry_accepted env page Ha), getPaginated_run.
  cbn [photoManager photoPath]. rewrite Hl.
  change (mbind (indexThen page) ([ReadCatalog], Resolved ?d))
    with (andThen ([ReadCatalog], Resolved d) (indexThen page)).
  unfold andThen. rewrite (indexThen_accepted page _ Ha).
  fold (photoManager env). fold dates.
  destruct ((requestedPage page =? 0) || (N.of_nat (length dates) <? requestedPage page))%N;
    reflexivity.
Qed.

Lemma app_index_refused env req s :
  route req = Index (Some s) -> Validate.isNumber s = false ->
  app env req = ([], notFound).
Proof.
  intros Hr Hs. unfold app, router. rewrite Hr. unfold index.
  rewrite (indexTry_refused env s Hs). reflexivity.
Qed.

End IndexRoute.

(** ** Date keys *)

Section DateKeyFacts.

Import Js.

Lemma code_inj c1 c2 : code c1 = code c2 -> c1 = c2.
Proof.
  unfold code. intros H.
  rewrite <- (ascii_N_embedding c1), <- (ascii_N_embedding c2), H. reflexivity.
Qed.

Lemma digit_value_inj c1 c2 :
  isDigit c1 = true -> isDigit c2 = true ->
  (code c1 - 48 = code c2 - 48)%N -> c1 = c2.
Proof.
  intros H1 H2 H. apply isDigit_code in H1. apply isDigit_code in H2.
  apply code_inj. lia.
Qed.

Lemma digit_value_bound c : isDigit c = true -> (code c - 48 < 10)%N.
Proof. intros H. apply isDigit_code in H. lia. Qed.

(** The shape of a date key, with the date value it parses to. *)
Lemma isDateFolderName_shape s :
  Validate.isDateFolderName s = true ->
  exists y1 y2 y3 y4 m1 m2 d1 d2,
    s = String y1 (String y2 (String y3 (String y4 (String "-"
          (String m1 (String m2 (String "-" (String d1 (String d2 "")))))))))
    /\ Forall (fun c => isDigit c = true) [y1; y2; y3; y4; m1; m2; d1; d2].
Proof.
  unfold Validate.isDateFolderName.
  do 10 (destruct s as [|? s]; [discriminate|]).
  destruct s; [|discriminate].
  intros H. do 9 (apply andb_prop in H as [H ?]).
  repeat match goal with
  | E : Ascii.eqb _ _ = true |- _ => apply Ascii.eqb_eq in E; subst
  end.
  do 8 eexists. split; [reflexivity|].
  repeat constructor; assumption.
Qed.

Lemma date_value_digits y1 y2 y3 y4 m1 m2 d1 d2 :
  Forall (fun c => isDigit c = true) [y1; y2; y3; y4; m1; m2; d1; d2] ->
  DateFolder.value (DateFolder.make
    (String y1 (String y2 (String y3 (String y4 (String "-"
       (String m1 (String m2 (String "-" (String d1 (String d2 "")))))))))))
  = (((((code y1 - 48) * 10 + (code y2 - 48)) * 10 + (code y3 - 48)) * 10
       + (code y4 - 48)) * 10000
     + ((code m1 - 48) * 10 + (code m2 - 48)) * 100
     + ((code d1 - 48) * 10 + (code d2 - 48)))%N.
Proof.
  intros H.
  repeat match goal with
  | H : Forall _ (_ :: _) |- _ => apply Forall_cons in H as [? H]
  end.
  unfold DateFolder.value, DateFolder.valueOf, DateFolder.make, DateFolder.parse.
  cbn [DateFolder.momentDate DateFolder.year DateFolder.month DateFolder.day
       substring].
  unfold decimal. cbn [takeDigits].
  repeat match goal with
  | H : isDigit ?c = true |- context [radixDigit 10 ?c] =>
      rewrite (radixDigit_10 c H)
  end.
  cbn [takeDigits mathInt fold_left]. lia.
Qed.

(** The key of a date folder determines its date value, and conversely. *)
Lemma date_value_inj a b :
  Validate.isDateFolderName a = true -> Validate.isDateFolderName b = true ->
  DateFolder.value (DateFolder.make a) = DateFolder.value (DateFolder.make b) ->
  a = b.
Proof.
  intros Ha Hb.
  apply isDateFolderName_shape in Ha as (y1&y2&y3&y4&m1&m2&d1&d2&->&Ha).
  apply isDateFolderName_shape in Hb as (z1&z2&z3&z4&n1&n2&e1&e2&->&Hb).
  rewrite (date_value_digits _ _ _ _ _ _ _ _ Ha), (date_value_digits _ _ _ _ _ _ _ _ Hb).
  repeat match goal with
  | H : Forall _ (_ :: _) |- _ => apply Forall_cons in H as [? H]
  end.
  repeat match goal with
  | H : isDigit ?c = true |- _ =>
      lazymatch goal with
      | _ : (code c - 48 < 10)%N |- _ => fail
      | _ => pose proof (digit_value_bound c H)
      end
  end.
  intros Hv.
  assert ((code y1 - 48 = code z1 - 48) /\ (code y2 - 48 = code z2 - 48)
          /\ (code y3 - 48 = code z3 - 48) /\ (code y4 - 48 = code z4 - 48)
          /\ (code m1 - 48 = code n1 - 48) /\ (code m2 - 48 = code n2 - 48)
          /\ (code d1 - 48 = code e1 - 48) /\ (code d2 - 48 = code e2 - 48))%N
    as (?&?&?&?&?&?&?&?).
  { set (p1 := (code y1 - 48)%N) in *. set (p2 := (code y2 - 48)%N) in *.
    set (p3 := (code y3 - 48)%N) in *. set (p4 := (code y4 - 48)%N) in *.
    set (p5 := (code m1 - 48)%N) in *. set (p6 := (code m2 - 48)%N) in *.
    set (p7 := (code d1 - 48)%N) in *. set (p8 := (code d2 - 48)%N) in *.
    set (q1 := (code z1 - 48)%N) in *. set (q2 := (code z2 - 48)%N) in *.
    set (q3 := (code z3 - 48)%N) in *. set (q4 := (code z4 - 48)%N) in *.
    set (q5 := (code n1 - 48)%N) in *. set (q6 := (code n2 - 48)%N) in *.
    set (q7 := (code e1 - 48)%N) in *. set (q8 := (code e2 - 48)%N) in *.
    clearbody p1 p2 p3 p4 p5 p6 p7 p8 q1 q2 q3 q4 q5 q6 q7 q8.
    assert (p7 * 10 + p8 = q7 * 10 + q8)%N as Hd by lia.
    assert (p5 * 10 + p6 = q5 * 10 + q6)%N as Hm by lia.
    assert (((p1 * 10 + p2) * 10 + p3) * 10 + p4
            = ((q1 * 10 + q2) * 10 + q3) * 10 + q4)%N as Hy by lia.
    clear Hv.
    assert ((p1 * 10 + p2) * 10 + p3 = (q1 * 10 + q2) * 10 + q3)%N as Hy3 by lia.
    assert (p1 * 10 + p2 = q1 * 10 + q2)%N as Hy2 by lia.
    repeat split; lia. }
  repeat f_equal; apply digit_value_inj; assumption.
Qed.

End DateKeyFacts.

(** ** The catalog: dates *)

Section CatalogDates.

Import PhotoManager Notions.

#[local] Instance recentFirst_total : Total recentFirst.
Proof. intros a b. unfold recentFirst. lia. Qed.

#[local] Instance recentFirst_trans : Transitive recentFirst.
Proof. intros a b c. unfold recentFirst. lia. Qed.

Lemma chunks_concat {A} (size : nat) (cur l : list A) :
  concat (chunks size cur l) = cur ++ l.
Proof.
  revert cur. induction l as [|x l IH]; intros cur; cbn [chunks].
  - destruct cur; cbn [concat]; rewrite ?app_nil_r; reflexivity.
  - destruct (length (cur ++ [x]) =? size)%nat.
    + cbn [concat]. rewrite IH, <- app_assoc. reflexivity.
    + rewrite IH, <- app_assoc. reflexivity.
Qed.

Lemma chunks_sizes {A} (size : nat) (cur l : list A) :
  (0 < size)%nat -> (length cur < size)%nat ->
  Forall (fun pg => (0 < length pg <= size)%nat) (chunks size cur l).
Proof.
  intros Hsize. revert cur. induction l as [|x l IH]; intros cur Hcur; cbn [chunks].
  - destruct cur as [|c cur]; [constructor|].
    constructor; [cbn [length] in *; lia | constructor].
  - assert (Hlen : length (cur ++ [x]) = S (length cur)).
    { rewrite length_app. cbn [length]. lia. }
    destruct (Nat.eqb_spec (length (cur ++ [x])) size) as [E | E].
    + constructor; [lia|]. apply IH. cbn [length]. lia.
    + apply IH. lia.
Qed.

(** Every page but the last is full. *)
Lemma chunks_full {A} (size : nat) (cur l : list A) :
  (length cur < size)%nat ->
  forall i pg, chunks size cur l !! i = Some pg ->
    (S i < length (chunks size cur l))%nat -> length pg = size.
Proof.
  revert cur. induction l as [|x l IH]; intros cur Hcur i pg; cbn [chunks].
  - destruct cur; [intros [=]|]. destruct i; cbn; [lia|intros [=]].
  - assert (Hlen : length (cur ++ [x]) = S (length cur)).
    { rewrite length_app. cbn [length]. lia. }
    destruct (Nat.eqb_spec (length (cur ++ [x])) size) as [E | E].
    + destruct i as [|i]; cbn [lookup list_lookup length].
      * intros [= <-] _. exact E.
      * intros Hi Hlt. apply (IH [] ltac:(cbn [length]; lia) i pg Hi). lia.
    + apply IH. lia.
Qed.

Lemma datesWithPictures_perm (l : Listing) :
  datesWithPictures l ≡ₚ filter (fun e => hasPictures e) (map entryOf l).
Proof. apply merge_sort_Permutation. Qed.

Lemma datesWithPictures_sorted (l : Listing) :
  StronglySorted recentFirst (datesWithPictures l).
Proof. apply StronglySorted_merge_sort; apply _. Qed.

Lemma entryOf_pictures_nil dir : pictures (entryOf dir) = [] <-> snd dir = [].
Proof.
  unfold entryOf. cbn [pictures]. split; intros H.
  - apply (f_equal length) in H. rewrite length_map in H.
    pose proof (Permutation_length (merge_sort_Permutation String.le (snd dir))) as Hp.
    destruct (snd dir); [reflexivity|]. cbn [length] in *. lia.
  - rewrite H. reflexivity.
Qed.

Lemma hasPictures_spec e : hasPictures e <-> pictures e <> [].
Proof. unfold hasPictures. destruct (pictures e); cbn; split; try easy. Qed.

(** Distinct date keys are distinct dates. *)
Lemma wellFormed_values (l : Listing) :
  WellFormed l ->
  NoDup (map (fun e => DateFolder.value (folder e)) (map entryOf l)).
Proof.
  intros [Hnd Hall].
  replace (map (fun e => DateFolder.value (folder e)) (map entryOf l))
    with ((fun k => DateFolder.value (DateFolder.make k)) <$> (fst <$> l)).
  2: { clear. induction l as [|dir l IH]; [reflexivity|].
       cbn [fmap list_fmap map]. f_equal. exact IH. }
  apply NoDup_fmap_2_strong; [|exact Hnd].
  intros a b Ha Hb Hv.
  apply list_elem_of_fmap in Ha as (da & -> & Ha).
  apply list_elem_of_fmap in Hb as (db & -> & Hb).
  rewrite Forall_forall in Hall.
  apply date_value_inj; [apply (Hall da), Ha | apply (Hall db), Hb | exact Hv].
Qed.

Lemma datesWithPictures_values (l : Listing) :
  WellFormed l ->
  NoDup (map (fun e => DateFolder.value (folder e)) (datesWithPictures l)).
Proof.
  intros Hwf.
  change (NoDup ((fun e => DateFolder.value (folder e)) <$> datesWithPictures l)).
  rewrite (datesWithPictures_perm l).
  eapply sublist_NoDup; [exact (wellFormed_values l Hwf)|].
  apply (fmap_sublist (fun e => DateFolder.value (folder e))), sublist_filter.
Qed.

Lemma strongly_sorted_strict (es : list DateEntry) :
  StronglySorted recentFirst es ->
  NoDup (map (fun e => DateFolder.value (folder e)) es) ->
  StronglySorted laterDate es.
Proof.
  induction 1 as [|e es Hs IH Hall]; intros Hnd; [constructor|].
  cbn [map] in Hnd. apply NoDup_cons in Hnd as [Hnotin Hnd].
  constructor; [exact (IH Hnd)|].
  rewrite Forall_forall in Hall |- *. intros e' He'.
  specialize (Hall e' He'). unfold recentFirst in Hall. unfold laterDate.
  assert (DateFolder.value (folder e') <> DateFolder.value (folder e)).
  { intros Heq. apply Hnotin. rewrite <- Heq.
    apply (list_elem_of_fmap_2 (fun e => DateFolder.value (folder e))). exact He'. }
  lia.
Qed.

Lemma elem_of_datesWithPictures (l : Listing) e :
  e ∈ datesWithPictures l ->
  pictures e <> [] /\ exists dir, dir ∈ l /\ e = entryOf dir.
Proof.
  rewrite (datesWithPictures_perm l), list_elem_of_filter.
  intros [Hp He]. split; [apply hasPictures_spec, Hp|].
  apply (list_elem_of_fmap entryOf) in He as (dir & -> & Hdir).
  exists dir. split; [exact Hdir | reflexivity].
Qed.

Lemma listing_functional {A B} (l : list (A * B)) k v1 v2 :
  NoDup (map fst l) -> (k, v1) ∈ l -> (k, v2) ∈ l -> v1 = v2.
Proof.
  induction l as [|[k' v'] l IH]; cbn [map fst]; intros Hnd H1 H2.
  - inversion H1.
  - apply NoDup_cons in Hnd as [Hnotin Hnd].
    assert (Hk : forall v, (k', v) ∈ l -> False).
    { intros v Hv. apply Hnotin.
      apply (list_elem_of_fmap_2 fst) in Hv. exact Hv. }
    apply elem_of_cons in H1 as [E1 | H1];
      apply elem_of_cons in H2 as [E2 | H2].
    + congruence.
    + injection E1 as -> ->. destruct (Hk _ H2).
    + injection E2 as -> ->. destruct (Hk _ H1).
    + exact (IH Hnd H1 H2).
Qed.

End CatalogDates.

Section PaginatedListing.

Import PhotoManager Server Notions.

Lemma paginated_concat (o : Options) (l : Listing) :
  concat (paginatedDatesWithPictures o l) = datesWithPictures l.
Proof. unfold paginatedDatesWithPictures. apply chunks_concat. Qed.

(** The first date of the listing is the latest one. *)
Lemma datesWithPictures_head_latest (l : Listing) e0 e :
  head (datesWithPictures l) = Some e0 -> e ∈ datesWithPictures l ->
  (DateFolder.value (folder e) <= DateFolder.value (folder e0))%N.
Proof.
  pose proof (datesWithPictures_sorted l) as Hs.
  destruct (datesWithPictures l) as [|x xs]; [intros [=]|].
  cbn [head]. intros [= ->] He.
  apply StronglySorted_inv in Hs as [_ Hall].
  apply elem_of_cons in He as [-> | He]; [lia|].
  rewrite Forall_forall in Hall. exact (Hall e He).
Qed.

(** C2: when the photo root can be read and holds a well-formed listing
    (distinct date-named folders), the paginated listing resolves to pages
    whose concatenation in page order is the list of the dates with pictures:
    strictly ordered by date, the latest first; a rearrangement of exactly
    the folders of the listing that have a picture, none of them twice; no
    folder without pictures occurs; and, the page size being positive, a page
    is never empty nor larger than the page size, and every page but the
    last is full. *)
Theorem paginated_dates_ordered_complete (o : Options) (l : Listing) :
  photoPath o = Some l ->
  WellFormed l ->
  exists pages,
    outcome (getPaginatedDatesWithPictures o) = Resolved pages
    /\ concat pages = datesWithPictures l
    /\ StronglySorted laterDate (concat pages)
    /\ concat pages ≡ₚ filter (fun e => hasPictures e) (map entryOf l)
    /\ NoDup (concat pages)
    /\ Forall (fun e => pictures e <> []) (concat pages)
    /\ (forall dir e, dir ∈ l -> snd dir = [] -> e ∈ concat pages ->
          DateFolder.date (folder e) <> fst dir)
    /\ ((0 < PhotoManager.paginationThreshold o)%nat ->
        Forall (fun pg => (0 < length pg <= PhotoManager.paginationThreshold o)%nat)
               pages
        /\ (forall i pg, pages !! i = Some pg -> (S i < length pages)%nat ->
              length pg = PhotoManager.paginationThreshold o)).
Proof.
  intros Hroot Hwf.
  exists (paginatedDatesWithPictures o l).
  rewrite getPaginated_run, Hroot, paginated_concat.
  pose proof (datesWithPictures_values l Hwf) as Hvalues.
  split; [reflexivity|]. split; [reflexivity|].
  split; [|split; [|split; [|split; [|split]]]].
  - apply strongly_sorted_strict; [apply datesWithPictures_sorted | exact Hvalues].
  - apply datesWithPictures_perm.
  - exact (NoDup_fmap_1 _ _ Hvalues).
  - rewrite Forall_forall. intros e He.
    apply (elem_of_datesWithPictures l e He).
  - intros [k files] e Hdir Hfiles He Hkey. cbn [fst snd] in *. subst files.
    apply elem_of_datesWithPictures in He as (Hp & [k' files'] & Hdir' & ->).
    cbn in Hkey. subst k'.
    destruct Hwf as [Hnd _].
    rewrite (listing_functional l _ _ _ Hnd Hdir' Hdir) in Hp.
    apply Hp. reflexivity.
  - intros Hsize. split.
    + apply chunks_sizes; [exact Hsize | cbn [length]; exact Hsize].
    + intros i pg. apply chunks_full. cbn [length]. exact Hsize.
Qed.

Lemma paginated_dates_ordered_complete_witness :
  exists pages,
    outcome (getPaginatedDatesWithPictures (photoManager Sample.env))
    = Resolved pages
    /\ map (map (fun e => DateFolder.date (folder e))) pages
       = [["2023-01-03"]; ["2023-01-01"]]
    /\ StronglySorted laterDate (concat pages).
Proof.
  destruct (paginated_dates_ordered_complete (photoManager Sample.env)
              Sample.listing) as (pages & Hrun & Hcat & Hsorted & _).
  - reflexivity.
  - apply (bool_decide_unpack (WellFormed Sample.listing)). vm_compute. exact I.
  - exists pages. split; [exact Hrun|]. split; [|exact Hsorted].
    vm_compute in Hrun. injection Hrun as <-. vm_compute. reflexivity.
Defined.

(** C7: with a readable photo root and [totalPages] pages, a request whose
    page parameter is refused by the number validator, or denotes a number
    below 1 or above [totalPages], is answered 404; an accepted page number
    within range gets that page; and a request without page parameter gets
    the answer of a request for page "1", which is the first page, the one
    that starts with the latest date. *)
Theorem index_page_range env req page l :
  route req = Index page ->
  pictureFolder env = Some l ->
  let dates := paginatedDatesWithPictures (photoManager env) l in
  let totalPages := length dates in
  (forall s, page = Some s ->
     ~ (Validate.isNumber s = true
        /\ (1 <= Js.decimal s <= N.of_nat totalPages)%N) ->
     respond env req = notFound)
  /\ (forall s, page = Some s -> Validate.isNumber s = true ->
        (1 <= Js.decimal s <= N.of_nat totalPages)%N ->
        respond env req
        = RenderIndex (dates !! (N.to_nat (Js.decimal s) - 1)%nat)
            (Js.Int (Z.of_N (Js.decimal s))) totalPages
        /\ is_Some (dates !! (N.to_nat (Js.decimal s) - 1)%nat))
  /\ (page = None ->
        forall req1, route req1 = Index (Some "1") ->
          respond env req = respond env req1)
  /\ (page = None ->
        respond env req
        = match dates with
          | [] => notFound
          | first :: _ => RenderIndex (Some first) (Js.Int 1) totalPages
          end)
  /\ (forall first e0 e, dates !! 0%nat = Some first -> head first = Some e0 ->
        e ∈ concat dates ->
        (DateFolder.value (folder e) <= DateFolder.value (folder e0))%N).
Proof.
  intros Hr Hl dates totalPages.
  split; [|split; [|split; [|split]]].
  - intros s -> Hout. unfold respond.
    destruct (Validate.isNumber s) eqn:Hs.
    + rewrite (app_index_accepted env req (Some s) l Hr Hs Hl).
      cbn [snd requestedPage]. fold dates. fold totalPages.
      destruct (N.eqb_spec (Js.decimal s) 0);
        destruct (N.ltb_spec (N.of_nat totalPages) (Js.decimal s));
        cbn [orb]; try reflexivity.
      exfalso. apply Hout. split; [reflexivity | lia].
    + rewrite (app_index_refused env req s Hr Hs). reflexivity.
  - intros s -> Hs Hin. unfold respond.
    rewrite (app_index_accepted env req (Some s) l Hr Hs Hl).
    cbn [snd requestedPage]. fold dates. fold totalPages.
    destruct (N.eqb_spec (Js.decimal s) 0); [lia|].
    destruct (N.ltb_spec (N.of_nat totalPages) (Js.decimal s)); [lia|].
    split; [reflexivity|]. apply lookup_lt_is_Some. unfold totalPages in *. lia.
  - intros -> req1 Hr1. unfold respond.
    rewrite (app_index_accepted env req None l Hr eq_refl Hl).
    rewrite (app_index_accepted env req1 (Some "1") l Hr1 eq_refl Hl).
    reflexivity.
  - intros ->. unfold respond.
    rewrite (app_index_accepted env req None l Hr eq_refl Hl).
    cbn [snd requestedPage]. fold dates. fold totalPages.
    unfold totalPages. destruct dates as [|first rest]; [reflexivity|].
    cbn [length].
    destruct (N.ltb_spec (N.of_nat (S (length rest))) 1); [lia | reflexivity].
  - intros first e0 e Hfirst Hhead He.
    unfold dates in He. rewrite paginated_concat in He.
    apply (datesWithPictures_head_latest l e0 e); [|exact He].
    rewrite <- (paginated_concat (photoManager env) l). fold dates.
    destruct dates as [|pg rest]; [discriminate|].
    cbn in Hfirst. injection Hfirst as ->.
    cbn [concat]. rewrite head_app, Hhead. reflexivity.
Qed.

Lemma index_page_range_witness :
  respond Sample.env (Sample.request (Index (Some "3"))) = notFound.
Proof.
  destruct (index_page_range Sample.env (Sample.request (Index (Some "3")))
              (Some "3") Sample.listing eq_refl eq_refl) as [Hout _].
  apply (Hout "3" eq_refl). vm_compute. intros [_ [_ H]]. apply H. reflexivity.
Defined.

End PaginatedListing.

(** ** The catalog: pictures and their neighbours *)

Section CatalogPictures.

Import PhotoManager Notions.

Lemma isPicture_spec d f p : isPicture d f p = true <-> pictureKey p = (d, f).
Proof.
  unfold isPicture, pictureKey. rewrite andb_true_iff, !String.eqb_eq.
  split; [intros [-> ->]; reflexivity | intros [= -> ->]; split; reflexivity].
Qed.

Lemma isPicture_self p :
  isPicture (DateFolder.date (date p)) (filename p) p = true.
Proof. apply isPicture_spec. reflexivity. Qed.

(** In an order without repeated keys, [locate] finds the picture at
    position [i] together with the elements at positions [i - 1] and
    [i + 1]. *)
Lemma locate_at (order : list Picture) :
  NoDup (map pictureKey order) ->
  forall i p prev, order !! i = Some p ->
    locate (DateFolder.date (date p)) (filename p) prev order
    = Some {| picture := p;
              previous := match i with O => prev | S j => order !! j end;
              next := order !! S i |}.
Proof.
  induction order as [|p0 rest IH]; intros Hnd i p prev Hi; [inversion Hi|].
  cbn [map] in Hnd. apply NoDup_cons in Hnd as [Hnotin Hnd].
  destruct i as [|i]; cbn [lookup list_lookup] in Hi.
  - injection Hi as ->. cbn [locate]. rewrite isPicture_self.
    destruct rest; reflexivity.
  - cbn [locate].
    destruct (isPicture (DateFolder.date (date p)) (filename p) p0) eqn:E.
    + exfalso. apply Hnotin. apply isPicture_spec in E. rewrite E.
      apply (list_elem_of_fmap_2 pictureKey), list_elem_of_lookup.
      exists i. exact Hi.
    + rewrite (IH Hnd i p (Some p0) Hi). destruct i; reflexivity.
Qed.

Lemma locate_absent d f (order : list Picture) prev :
  (forall p, p ∈ order -> pictureKey p <> (d, f)) ->
  locate d f prev order = None.
Proof.
  revert prev. induction order as [|p0 rest IH]; intros prev H; [reflexivity|].
  cbn [locate]. destruct (isPicture d f p0) eqn:E.
  - apply isPicture_spec in E. destruct (H p0); [left | exact E].
  - apply IH. intros p Hp. apply H. right. exact Hp.
Qed.

Lemma flat_map_filter_pictures (es : list DateEntry) :
  flat_map pictures (filter (fun e => hasPictures e) es) = flat_map pictures es.
Proof.
  induction es as [|e es IH]; [reflexivity|].
  rewrite filter_cons. cbn [flat_map].
  destruct (decide (hasPictures e)) as [H | H].
  - cbn [flat_map]. rewrite IH. reflexivity.
  - rewrite IH. unfold hasPictures in H. destruct (pictures e); [reflexivity|].
    destruct H. exact I.
Qed.

(** The chronological order holds the pictures of every folder of the
    listing, each once. *)
Lemma chronological_perm (l : Listing) :
  chronological l ≡ₚ flat_map (fun dir => pictures (entryOf dir)) l.
Proof.
  unfold chronological. rewrite <- flat_map_concat_map.
  rewrite (Permutation_flat_map pictures
             (Permutation_trans (reverse_Permutation _) (datesWithPictures_perm l))).
  rewrite flat_map_filter_pictures.
  clear. induction l as [|dir l IH]; [reflexivity|].
  cbn [map flat_map]. rewrite IH. reflexivity.
Qed.

Lemma entry_keys dir :
  map pictureKey (pictures (entryOf dir))
  = map (pair (fst dir)) (merge_sort String.le (snd dir)).
Proof.
  unfold entryOf. cbn [pictures]. rewrite map_map. reflexivity.
Qed.

Lemma listing_keys_NoDup (l : Listing) :
  WellFormed l ->
  NoDup (map pictureKey (flat_map (fun dir => pictures (entryOf dir)) l)).
Proof.
  intros [Hnd Hall]. induction l as [|dir l IH]; [constructor|].
  cbn [map fst] in Hnd. apply NoDup_cons in Hnd as [Hnotin Hnd].
  apply Forall_cons in Hall as [[_ Hfiles] Hall].
  cbn [flat_map]. rewrite map_app. apply NoDup_app. split; [|split].
  - rewrite entry_keys.
    apply (NoDup_fmap_2 (pair (fst dir))).
    rewrite (merge_sort_Permutation String.le (snd dir)). exact Hfiles.
  - intros k Hk Hk'. rewrite entry_keys in Hk.
    apply (list_elem_of_fmap (pair (fst dir))) in Hk as (f & -> & _).
    apply (list_elem_of_fmap pictureKey) in Hk' as (p & Hkey & Hp).
    apply list_elem_of_In, in_flat_map in Hp as (dir' & Hdir' & Hp).
    apply list_elem_of_In in Hdir'.
    apply Hnotin. apply (list_elem_of_fmap fst). exists dir'.
    split; [|exact Hdir'].
    unfold entryOf in Hp. cbn [pictures] in Hp.
    apply in_map_iff in Hp as (f' & <- & _).
    unfold pictureKey, DateFolder.make in Hkey.
    cbn [date filename DateFolder.date] in Hkey.
    injection Hkey as Hk _. exact Hk.
  - exact (IH Hnd Hall).
Qed.

Lemma chronological_keys_NoDup (l : Listing) :
  WellFormed l -> NoDup (map pictureKey (chronological l)).
Proof.
  intros Hwf.
  change (NoDup (pictureKey <$> chronological l)).
  rewrite (chronological_perm l). exact (listing_keys_NoDup l Hwf).
Qed.

End CatalogPictures.

Section ChronologicalOrder.

Import PhotoManager Notions.

Lemma StronglySorted_reverse_flip {A} (R : relation A) (l : list A) :
  StronglySorted R l -> StronglySorted (flip R) (reverse l).
Proof.
  induction 1 as [|x l Hs IH Hall]; [constructor|].
  rewrite reverse_cons. apply StronglySorted_app_2.
  - intros x1 x2 H1 H2. apply list_elem_of_singleton in H2 as ->.
    rewrite elem_of_reverse in H1. rewrite Forall_forall in Hall.
    exact (Hall x1 H1).
  - exact IH.
  - repeat constructor.
Qed.

Lemma strict_filenames (fs : list string) :
  StronglySorted String.le fs -> NoDup fs ->
  StronglySorted (fun a b => String.le a b /\ a <> b) fs.
Proof.
  induction 1 as [|f fs Hs IH Hall]; intros Hnd; [constructor|].
  apply NoDup_cons in Hnd as [Hnotin Hnd].
  constructor; [exact (IH Hnd)|].
  rewrite Forall_forall in Hall |- *. intros g Hg.
  split; [exact (Hall g Hg) | intros ->; exact (Hnotin Hg)].
Qed.

(** Within a folder the pictures are in strictly increasing filename order
    and carry the folder's date. *)
Lemma entry_pictures_sorted dir :
  NoDup (snd dir) -> StronglySorted pictureBefore (pictures (entryOf dir)).
Proof.
  intros Hnd. unfold entryOf. cbn [pictures].
  apply (StronglySorted_fmap _ (fun a b => String.le a b /\ a <> b)).
  - intros a b [Hle Hne]. right. cbn [date filename].
    split; [reflexivity | split; assumption].
  - apply strict_filenames.
    + apply StronglySorted_merge_sort; apply _.
    + rewrite (merge_sort_Permutation String.le (snd dir)). exact Hnd.
Qed.

Lemma entry_pictures_date dir p :
  p ∈ pictures (entryOf dir) -> date p = folder (entryOf dir).
Proof.
  unfold entryOf. cbn [pictures folder]. intros Hp.
  apply list_elem_of_In, in_map_iff in Hp as (f & <- & _). reflexivity.
Qed.

Lemma blocks_sorted (blocks : list DateEntry) :
  StronglySorted (flip laterDate) blocks ->
  (forall e, e ∈ blocks ->
     StronglySorted pictureBefore (pictures e)
     /\ forall p, p ∈ pictures e -> date p = folder e) ->
  StronglySorted pictureBefore (concat (map pictures blocks)).
Proof.
  induction 1 as [|e es Hs IH Hall]; intros Hblocks; [constructor|].
  cbn [map concat]. apply StronglySorted_app_2.
  - intros p1 p2 H1 H2. left.
    apply list_elem_of_In, in_concat in H2 as (ps & Hps & H2).
    apply in_map_iff in Hps as (e2 & <- & He2).
    apply list_elem_of_In in He2, H2.
    destruct (Hblocks e ltac:(left)) as [_ Hd1].
    destruct (Hblocks e2 ltac:(right; exact He2)) as [_ Hd2].
    rewrite (Hd1 p1 H1), (Hd2 p2 H2).
    rewrite Forall_forall in Hall. exact (Hall e2 He2).
  - apply (Hblocks e). left.
  - apply IH. intros e' He'. apply Hblocks. right. exact He'.
Qed.

(** The chronological order is strictly increasing: by date, and by filename
    within a date. *)
Lemma chronological_sorted (l : Listing) :
  WellFormed l -> StronglySorted pictureBefore (chronological l).
Proof.
  intros Hwf. unfold chronological. apply blocks_sorted.
  - apply StronglySorted_reverse_flip, strongly_sorted_strict.
    + apply datesWithPictures_sorted.
    + apply datesWithPictures_values, Hwf.
  - intros e He. rewrite elem_of_reverse in He.
    apply elem_of_datesWithPictures in He as (_ & dir & Hdir & ->).
    destruct Hwf as [_ Hall]. rewrite Forall_forall in Hall.
    split.
    + apply entry_pictures_sorted, (Hall dir Hdir).
    + intros p. apply entry_pictures_date.
Qed.

End ChronologicalOrder.

(** ** The latest pictures of the catalog *)

Section LatestPictures.

Import PhotoManager Server Notions.

Lemma isDigit_cases c :
  Js.isDigit c = true ->
  In c ["0"; "1"; "2"; "3"; "4"; "5"; "6"; "7"; "8"; "9"]%char.
Proof.
  intros H. apply isDigit_code in H.
  rewrite <- (ascii_N_embedding c). fold (Js.code c).
  assert (Js.code c = 48 \/ Js.code c = 49 \/ Js.code c = 50 \/ Js.code c = 51
          \/ Js.code c = 52 \/ Js.code c = 53 \/ Js.code c = 54
          \/ Js.code c = 55 \/ Js.code c = 56 \/ Js.code c = 57)%N as Hc by lia.
  repeat destruct Hc as [-> | Hc]; try rewrite Hc; vm_compute; tauto.
Qed.

(** Four digits are the zero-padded numeral of the number they denote. *)
Lemma pad_decimal_4 a b c d :
  Js.isDigit a = true -> Js.isDigit b = true ->
  Js.isDigit c = true -> Js.isDigit d = true ->
  DateFolder.pad 4 (Js.decimal (String a (String b (String c (String d "")))))
  = String a (String b (String c (String d ""))).
Proof.
  intros Ha Hb Hc Hd.
  apply isDigit_cases in Ha, Hb, Hc, Hd.
  set (ds := ["0"; "1"; "2"; "3"; "4"; "5"; "6"; "7"; "8"; "9"]%char) in *.
  assert (Hall :
    forallb (fun a => forallb (fun b => forallb (fun c => forallb (fun d =>
      String.eqb
        (DateFolder.pad 4
           (Js.decimal (String a (String b (String c (String d ""))))))
        (String a (String b (String c (String d ""))))) ds) ds) ds) ds = true).
  { vm_compute. reflexivity. }
  rewrite forallb_forall in Hall. specialize (Hall a Ha).
  rewrite forallb_forall in Hall. specialize (Hall b Hb).
  rewrite forallb_forall in Hall. specialize (Hall c Hc).
  rewrite forallb_forall in Hall. specialize (Hall d Hd).
  apply String.eqb_eq. exact Hall.
Qed.

Lemma pad_decimal_2 a b :
  Js.isDigit a = true -> Js.isDigit b = true ->
  DateFolder.pad 2 (Js.decimal (String a (String b ""))) = String a (String b "").
Proof.
  intros Ha Hb.
  apply isDigit_cases in Ha, Hb.
  set (ds := ["0"; "1"; "2"; "3"; "4"; "5"; "6"; "7"; "8"; "9"]%char) in *.
  assert (Hall :
    forallb (fun a => forallb (fun b =>
      String.eqb (DateFolder.pad 2 (Js.decimal (String a (String b ""))))
                 (String a (String b ""))) ds) ds = true).
  { vm_compute. reflexivity. }
  rewrite forallb_forall in Hall. specialize (Hall a Ha).
  rewrite forallb_forall in Hall. specialize (Hall b Hb).
  apply String.eqb_eq. exact Hall.
Qed.

(** Formatting the date value of a date key as YYYY-MM-DD gives the key
    back. *)
Lemma format_parse key :
  Validate.isDateFolderName key = true ->
  DateFolder.format (DateFolder.parse key) = key.
Proof.
  intros H.
  apply isDateFolderName_shape in H as (y1&y2&y3&y4&m1&m2&d1&d2&->&H).
  repeat match goal with
  | H : Forall _ (_ :: _) |- _ => apply Forall_cons in H as [? H]
  end.
  unfold DateFolder.format, DateFolder.parse.
  cbn [DateFolder.year DateFolder.month DateFolder.day substring].
  rewrite pad_decimal_4, !pad_decimal_2 by assumption. reflexivity.
Qed.

Lemma elem_of_entry dir p :
  p ∈ pictures (entryOf dir)
  <-> PhotoManager.date p = DateFolder.make (fst dir)
      /\ PhotoManager.filename p ∈ snd dir.
Proof.
  unfold entryOf. cbn [pictures].
  rewrite (list_elem_of_fmap
             (fun f => {| PhotoManager.date := DateFolder.make (fst dir);
                          PhotoManager.filename := f |})).
  split.
  - intros (f & -> & Hf). split; [reflexivity|].
    rewrite (merge_sort_Permutation String.le (snd dir)) in Hf. exact Hf.
  - intros [Hd Hf]. exists (PhotoManager.filename p). split.
    + destruct p as [d f]. cbn in Hd |- *. rewrite Hd. reflexivity.
    + rewrite (merge_sort_Permutation String.le (snd dir)). exact Hf.
Qed.

(** The chronological order holds exactly the pictures of the collection. *)
Lemma elem_of_chronological l p : p ∈ chronological l <-> inCatalog l p.
Proof.
  rewrite (chronological_perm l), list_elem_of_In, in_flat_map.
  unfold inCatalog.
  split; intros (dir & Hdir & H); exists dir.
  - apply list_elem_of_In in Hdir. apply list_elem_of_In, elem_of_entry in H.
    split; [exact Hdir | exact H].
  - split; [apply list_elem_of_In; exact Hdir|].
    apply list_elem_of_In, elem_of_entry. exact H.
Qed.

Lemma chronological_length l :
  length (chronological l) = length (concat (map snd l)).
Proof.
  rewrite (Permutation_length (chronological_perm l)).
  induction l as [|dir l IH]; [reflexivity|].
  cbn [flat_map map concat]. rewrite !length_app, IH. f_equal.
  unfold entryOf. cbn [pictures]. rewrite length_map.
  apply Permutation_length, merge_sort_Permutation.
Qed.

(** The date key of a picture of a well-formed listing is a date key, and
    the picture's date value is the one the key parses to. *)
Lemma inCatalog_date l p :
  WellFormed l -> inCatalog l p ->
  Validate.isDateFolderName (DateFolder.date (PhotoManager.date p)) = true
  /\ DateFolder.momentDate (PhotoManager.date p)
     = DateFolder.parse (DateFolder.date (PhotoManager.date p)).
Proof.
  intros [_ Hall] (dir & Hdir & -> & _).
  rewrite Forall_forall in Hall. destruct (Hall dir Hdir) as [Hname _].
  split; [exact Hname | reflexivity].
Qed.

(** C9: on the route for the latest pictures, with a readable photo root, a
    well-formed listing and an amount that is absent or accepted, let [n] be
    3 when the amount is absent and the number the parameter denotes
    otherwise. The response is a list of min([n], number of photos) entries;
    each entry carries the date key and the filename of its picture and the
    links to its page and its thumbnail under the path prefix. The pictures
    listed are pictures of the collection, each once, the latest first
    (strictly decreasing by date, then by filename), and every picture of
    the collection that is not listed comes before every listed one: they
    are the [n] most recent. When [n] is at least the number of photos
    every picture of the collection is listed. *)
Theorem latest_returns_most_recent env req amount l :
  route req = Latest amount ->
  acceptedParam amount = true ->
  pictureFolder env = Some l ->
  WellFormed l ->
  let n := N.to_nat (requestedAmount amount) in
  let total := length (concat (map snd l)) in
  let selected := take n (allPictures l) in
  (amount = None -> n = 3%nat)
  /\ (forall k : N, amount = Some (pretty k) -> n = N.to_nat k)
  /\ (exists entries,
        respond env req = Json entries
        /\ length entries = Nat.min n total
        /\ Forall2 (fun e p =>
             Server.date e = DateFolder.date (PhotoManager.date p)
             /\ Server.filename e = PhotoManager.filename p
             /\ Server.url e
                = pathPrefix (config env) +:+ "/view/"
                  +:+ DateFolder.date (PhotoManager.date p) +:+ "/"
                  +:+ PhotoManager.filename p
             /\ Server.thumbnail e
                = pathPrefix (config env) +:+ "/thumbnails/"
                  +:+ DateFolder.date (PhotoManager.date p) +:+ "/"
                  +:+ PhotoManager.filename p)
             entries selected)
  /\ Forall (inCatalog l) selected
  /\ NoDup (map pictureKey selected)
  /\ StronglySorted (flip pictureBefore) selected
  /\ (forall p q, p ∈ selected -> inCatalog l q -> q ∉ selected ->
        pictureBefore q p)
  /\ (total <= n -> forall q, inCatalog l q -> q ∈ selected)
  /\ selected = reverse (drop (length (chronological l) - n) (chronological l)).
Proof.
  intros Hr Ha Hl Hwf n total selected.
  assert (Hsorted : StronglySorted (flip pictureBefore) (allPictures l)).
  { apply StronglySorted_reverse_flip, chronological_sorted, Hwf. }
  assert (Hsplit : selected ++ drop n (allPictures l) = allPictures l).
  { apply take_drop. }
  assert (Hin : forall p, p ∈ allPictures l <-> inCatalog l p).
  { intros p. unfold allPictures. rewrite elem_of_reverse.
    apply elem_of_chronological. }
  assert (Hlen : length (allPictures l) = total).
  { unfold allPictures. rewrite length_reverse. apply chronological_length. }
  assert (Hsel : forall p, p ∈ selected -> inCatalog l p).
  { intros p Hp. apply Hin. rewrite <- Hsplit. apply elem_of_app. left. exact Hp. }
  split; [|split; [|split; [|split; [|split; [|split; [|split; [|split]]]]]]].
  - intros ->. reflexivity.
  - intros k ->. subst n. cbn [requestedAmount].
    f_equal. apply pretty_N_isDigits.
  - exists (map (latestEntry env) selected). split; [|split].
    + unfold respond. rewrite (app_latest_accepted env req amount Hr Ha), Hl.
      reflexivity.
    + rewrite length_map. subst selected. rewrite length_take, Hlen. reflexivity.
    + apply (Forall2_fmap_l (latestEntry env)), Forall_Forall2_diag, Forall_forall.
      intros p Hp. destruct (inCatalog_date l p Hwf (Hsel p Hp)) as [Hname Hval].
      unfold latestEntry. cbn [Server.date Server.filename url thumbnail compose].
      rewrite Hval, (format_parse _ Hname). repeat split; reflexivity.
  - apply Forall_forall. exact Hsel.
  - subst selected. unfold allPictures.
    change (NoDup (pictureKey <$> take n (reverse (chronological l)))).
    rewrite fmap_take, fmap_reverse.
    apply (sublist_NoDup _ (reverse (pictureKey <$> chronological l))).
    + rewrite reverse_Permutation. exact (chronological_keys_NoDup l Hwf).
    + apply sublist_take.
  - rewrite <- Hsplit in Hsorted. exact (StronglySorted_app_1_l _ _ _ Hsorted).
  - intros p q Hp Hq Hnot. apply Hin in Hq. rewrite <- Hsplit in Hq, Hsorted.
    apply elem_of_app in Hq as [Hq | Hq]; [destruct (Hnot Hq)|].
    exact (StronglySorted_app_1_elem_of _ _ _ p q Hsorted Hp Hq).
  - intros Hle q Hq. apply Hin in Hq. subst selected.
    rewrite take_ge by lia. exact Hq.
  - subst selected. unfold allPictures. rewrite take_reverse. reflexivity.
Qed.

Lemma latest_returns_most_recent_witness :
  respond sampleFive (Sample.request (Latest None))
  = Json [ {| Server.date := "2023-01-03"; Server.filename := "d.jpg";
              url := "/gallery/view/2023-01-03/d.jpg";
              thumbnail := "/gallery/thumbnails/2023-01-03/d.jpg" |};
           {| Server.date := "2023-01-03"; Server.filename := "c.jpg";
              url := "/gallery/view/2023-01-03/c.jpg";
              thumbnail := "/gallery/thumbnails/2023-01-03/c.jpg" |};
           {| Server.date := "2023-01-01"; Server.filename := "b.jpg";
              url := "/gallery/view/2023-01-01/b.jpg";
              thumbnail := "/gallery/thumbnails/2023-01-01/b.jpg" |} ].
Proof.
  destruct (latest_returns_most_recent sampleFive (Sample.request (Latest None)) None
              fivePictures)
    as (_ & _ & (entries & Hresp & _ & Hdesc) & _).
  - reflexivity.
  - reflexivity.
  - reflexivity.
  - apply (bool_decide_unpack (WellFormed fivePictures)). vm_compute. exact I.
  - rewrite Hresp. f_equal.
    vm_compute in Hdesc.
    repeat match goal with
    | H : Forall2 _ _ (_ :: _) |- _ =>
        let F := fresh "F" in
        apply Forall2_cons_inv_r in H as ([] & ? & F & H & ->);
        destruct F as (? & ? & ? & ?)
    | H : Forall2 _ _ [] |- _ => apply Forall2_nil_inv_r in H as ->
    end.
    cbn in *. subst. reflexivity.
Defined.

End LatestPictures.

(** ** Validation of the identifiers *)

Section IdentifierFacts.

Import Notions.

Lemma includes_char c n s (p : ascii -> bool) :
  Js.includes (String c n) s = true -> p c = false -> Js.allChars p s = false.
Proof.
  intros H Hc. induction s as [|a s IH]; [discriminate H|].
  cbn [Js.includes String.prefix] in H. cbn [Js.allChars].
  destruct (ascii_dec c a) as [<- | _].
  - rewrite Hc. reflexivity.
  - cbn [orb] in H. rewrite (IH H). apply andb_false_r.
Qed.

Lemma isDateFolderName_chars s :
  Validate.isDateFolderName s = true -> Js.allChars isDateChar s = true.
Proof.
  intros H. apply isDateFolderName_shape in H
    as (y1&y2&y3&y4&m1&m2&d1&d2&->&H).
  repeat match goal with
  | H : Forall _ (_ :: _) |- _ => apply Forall_cons in H as [? H]
  end.
  cbn [Js.allChars]. unfold isDateChar.
  repeat match goal with
  | H : Js.isDigit ?c = true |- _ => rewrite H; clear H
  end.
  reflexivity.
Qed.

(** A string with a path separator or a traversal sequence is neither a
    photo filename nor a date key. *)
Lemma traversal_refused s :
  hasTraversal s = true ->
  Validate.isPhotoFilename s = false /\ Validate.isDateFolderName s = false.
Proof.
  unfold hasTraversal. intros H.
  apply orb_prop in H as [H | H]; [apply orb_prop in H as [H | H]|].
  - split.
    + unfold Validate.isPhotoFilename. destruct s; [reflexivity|].
      rewrite H. apply andb_false_r.
    + destruct (Validate.isDateFolderName s) eqn:E; [|reflexivity].
      apply isDateFolderName_chars in E.
      rewrite (includes_char "." "." s isDateChar H eq_refl) in E. discriminate.
  - split.
    + unfold Validate.isPhotoFilename. destruct s; [reflexivity|].
      rewrite (includes_char "/" "" _ Validate.isSafeChar H eq_refl).
      reflexivity.
    + destruct (Validate.isDateFolderName s) eqn:E; [|reflexivity].
      apply isDateFolderName_chars in E.
      rewrite (includes_char "/" "" s isDateChar H eq_refl) in E. discriminate.
  - split.
    + unfold Validate.isPhotoFilename. destruct s; [reflexivity|].
      rewrite (includes_char "\" "" _ Validate.isSafeChar H eq_refl).
      reflexivity.
    + destruct (Validate.isDateFolderName s) eqn:E; [|reflexivity].
      apply isDateFolderName_chars in E.
      rewrite (includes_char "\" "" s isDateChar H eq_refl) in E. discriminate.
Qed.

End IdentifierFacts.

(** ** The picture and thumbnail routes *)

Section KeyedRoutes.

Import PhotoManager Server Notions.

Lemma getPicture_run (o : Options) d f :
  getPicture o d f =
  match photoPath o with
  | Some l => ([ReadCatalog], Resolved (findPicture l d f))
  | None => ([ReadCatalog],
             Rejected (mkError PlainError "ENOENT: no such file or directory, scandir"))
  end.
Proof. unfold getPicture, scan. destruct (photoPath o); reflexivity. Qed.

Lemma viewTry_valid env d f :
  Validate.isDateFolderName d = true -> Validate.isPhotoFilename f = true ->
  viewTry env d f = getPicture (photoManager env) d f.
Proof.
  intros Hd Hf. unfold viewTry, Validate.validateDateFolderName,
    Validate.validatePhotoFilename. rewrite Hd, Hf, !check_true.
  etransitivity; [exact (andThen_resolve tt _)|].
  exact (andThen_resolve tt (fun _ => getPicture (photoManager env) d f)).
Qed.

Lemma thumbnailsTry_valid env d f :
  Validate.isDateFolderName d = true -> Validate.isPhotoFilename f = true ->
  thumbnailsTry env d f = thumbnailer env d f.
Proof.
  intros Hd Hf. unfold thumbnailsTry, Validate.validateDateFolderName,
    Validate.validatePhotoFilename. rewrite Hd, Hf, !check_true.
  etransitivity; [exact (andThen_resolve tt _)|].
  exact (andThen_resolve tt (fun _ => thumbnailer env d f)).
Qed.

Lemma viewTry_invalid env d f :
  Validate.isDateFolderName d = false \/ Validate.isPhotoFilename f = false ->
  exists msg, viewTry env d f = throw (mkError ValidationError msg).
Proof.
  unfold viewTry, Validate.validateDateFolderName, Validate.validatePhotoFilename.
  destruct (Validate.isDateFolderName d) eqn:Hd.
  - intros [H | H]; [discriminate|]. rewrite H. eexists. reflexivity.
  - intros _. eexists. reflexivity.
Qed.

Lemma thumbnailsTry_invalid env d f :
  Validate.isDateFolderName d = false \/ Validate.isPhotoFilename f = false ->
  exists msg, thumbnailsTry env d f = throw (mkError ValidationError msg).
Proof.
  unfold thumbnailsTry, Validate.validateDateFolderName,
    Validate.validatePhotoFilename.
  destruct (Validate.isDateFolderName d) eqn:Hd.
  - intros [H | H]; [discriminate|]. rewrite H. eexists. reflexivity.
  - intros _. eexists. reflexivity.
Qed.

Lemma errorMiddleware_validation e :
  errorClass e = ValidationError -> errorMiddleware e = notFound.
Proof. intros H. unfold errorMiddleware, instanceof. rewrite H. reflexivity. Qed.

(** Whatever its message, a [ValidationError] that reaches the [.catch] of
    the thumbnail route ends as a 404: answered there, or rethrown to the
    error-handling middleware. *)
Lemma thumbnailsCatch_validation e :
  errorClass e = ValidationError ->
  match thumbnailsCatch e with
  | (t, Resolved r) => t = [] /\ r = notFound
  | (t, Rejected e') => t = [] /\ errorMiddleware e' = notFound
  end.
Proof.
  intros H. unfold thumbnailsCatch.
  destruct (Js.includes "Unable to open file" (message e)); cbn.
  - split; reflexivity.
  - split; [reflexivity | apply errorMiddleware_validation, H].
Qed.

Lemma malformed_key d f :
  Validate.isDateFolderName d = false \/ Validate.isPhotoFilename f = false
  \/ hasTraversal d = true \/ hasTraversal f = true ->
  Validate.isDateFolderName d = false \/ Validate.isPhotoFilename f = false.
Proof.
  intros [H | [H | [H | H]]]; [left; exact H | right; exact H | |].
  - left. apply (traversal_refused d H).
  - right. apply (traversal_refused f H).
Qed.

(** C5: on the picture route and on the thumbnail route, when the date
    parameter is not a date key or the filename parameter is not a photo
    filename (in particular when either holds a path separator or the
    sequence [..]), a [ValidationError] is raised and the request makes no
    access at all, neither to the catalog nor to the thumbnail store; the
    answer is the 404 response. *)
Theorem malformed_params_no_access env req d f :
  route req = View d f \/ route req = Thumbnails d f ->
  Validate.isDateFolderName d = false \/ Validate.isPhotoFilename f = false
  \/ hasTraversal d = true \/ hasTraversal f = true ->
  accesses env req = []
  /\ respond env req = notFound
  /\ exists e, raised env req = Some e /\ errorClass e = ValidationError.
Proof.
  intros Hr Hbad. apply malformed_key in Hbad.
  unfold accesses, respond, app, router, raised.
  destruct Hr as [-> | ->].
  - unfold view. destruct (viewTry_invalid env d f Hbad) as [msg ->].
    cbn. repeat split. eexists. split; reflexivity.
  - unfold thumbnails. destruct (thumbnailsTry_invalid env d f Hbad) as [msg ->].
    cbn. pose proof (thumbnailsCatch_validation (mkError ValidationError msg) eq_refl) as Hc.
    destruct (thumbnailsCatch (mkError ValidationError msg)) as [t [r | e']];
      destruct Hc as [-> Hc]; cbn; rewrite Hc;
      (repeat split; eexists; split; reflexivity).
Qed.

Lemma malformed_params_no_access_witness :
  hasTraversal "../secret" = true
  /\ accesses Sample.env (Sample.request (View "2023-01-01" "../secret")) = []
  /\ respond Sample.env (Sample.request (View "2023-01-01" "../secret")) = notFound.
Proof.
  split; [reflexivity|].
  destruct (malformed_params_no_access Sample.env
              (Sample.request (View "2023-01-01" "../secret"))
              "2023-01-01" "../secret") as (Ha & Hr & _).
  - left. reflexivity.
  - right. right. right. reflexivity.
  - split; [exact Ha | exact Hr].
Defined.

Lemma rejection_andThen {A B} (p : Promise A) (k : A -> Promise B) e :
  rejection p = Some e -> andThen p k = (trace p, Rejected e).
Proof.
  unfold rejection, outcome, trace. destruct p as [t [a | e']]; cbn.
  - discriminate.
  - intros [= ->]. reflexivity.
Qed.

(** A route of the shape [Promise.try(...).then(...)] whose first part is
    rejected hands the error to the error-handling middleware. *)
Ltac rejected_in_try Hraised :=
  match goal with
  | |- context [mbind ?k ?p] =>
      change (mbind k p) with (andThen p k);
      rewrite (rejection_andThen p k _ Hraised)
  end.

Lemma raised_validation_not_found env req e :
  raised env req = Some e ->
  errorClass e = ValidationError ->
  respond env req = notFound.
Proof.
  intros Hraised Hclass.
  unfold respond, app, router. unfold raised in Hraised.
  destruct (route req) as [ | amount | page | d f | d f];
    [unfold mediaWikiAuth | unfold latest | unfold index | unfold view
     | unfold thumbnails];
    rejected_in_try Hraised.
  1-4: cbn [snd]; apply errorMiddleware_validation, Hclass.
  unfold catch.
  pose proof (thumbnailsCatch_validation e Hclass) as Hc.
  destruct (thumbnailsCatch e) as [t [r | e']]; destruct Hc as [-> Hc];
    cbn [snd]; exact Hc.
Qed.

Lemma malformed_raises env req :
  malformed (route req) = true ->
  exists e, raised env req = Some e /\ errorClass e = ValidationError.
Proof.
  unfold malformed, raised.
  destruct (route req) as [ | [s|] | [s|] | d f | d f]; try discriminate;
    intros H; apply negb_true_iff in H.
  - rewrite (latestTry_refused env s H). eexists. split; reflexivity.
  - rewrite (indexTry_refused env s H). eexists. split; reflexivity.
  - apply andb_false_iff in H.
    destruct (viewTry_invalid env d f H) as [msg ->].
    eexists. split; reflexivity.
  - apply andb_false_iff in H.
    destruct (thumbnailsTry_invalid env d f H) as [msg ->].
    eexists. split; reflexivity.
Qed.

(** C6: whenever the [Promise.try] block of a request's route raises a
    [ValidationError], the response is the 404 response and no other status
    is sent; and a request whose date key, filename or numeric parameter
    does not pass validation does raise one, so it gets that response. *)
Theorem validation_error_is_not_found env req :
  (forall e, raised env req = Some e -> errorClass e = ValidationError ->
     respond env req = notFound /\ status (respond env req) = Some 404%nat)
  /\ (malformed (route req) = true ->
      (exists e, raised env req = Some e /\ errorClass e = ValidationError)
      /\ respond env req = notFound).
Proof.
  split.
  - intros e Hraised Hclass.
    rewrite (raised_validation_not_found env req e Hraised Hclass).
    split; reflexivity.
  - intros Hbad. destruct (malformed_raises env req Hbad) as (e & Hraised & Hclass).
    split; [exists e; split; assumption|].
    exact (raised_validation_not_found env req e Hraised Hclass).
Qed.

Lemma validation_error_is_not_found_witness :
  raised Sample.env (Sample.request (Index (Some "x1")))
  = Some (mkError ValidationError "Must be a number")
  /\ respond Sample.env (Sample.request (Index (Some "x1"))) = notFound.
Proof.
  split; [reflexivity|].
  apply (validation_error_is_not_found Sample.env
           (Sample.request (Index (Some "x1")))); reflexivity.
Defined.

End KeyedRoutes.

Section PictureRoute.

Import PhotoManager Server Notions.

Lemma app_view_valid env req d f l :
  route req = View d f ->
  Validate.isDateFolderName d = true -> Validate.isPhotoFilename f = true ->
  pictureFolder env = Some l ->
  outcome (getPicture (photoManager env) d f) = Resolved (findPicture l d f)
  /\ app env req =
     ([ReadCatalog],
      match findPicture l d f with
      | None => notFound
      | Some ph => RenderView ph (previous ph) (next ph)
                     (absoluteThumbnail env req (picture ph))
      end).
Proof.
  intros Hr Hd Hf Hl. unfold app, router. rewrite Hr. unfold view.
  rewrite (viewTry_valid env d f Hd Hf), getPicture_run.
  cbn [photoManager photoPath]. rewrite Hl. split; [reflexivity|].
  cbn. destruct (findPicture l d f); reflexivity.
Qed.

(** C3: on the picture route, for a date key and a filename that pass
    validation, a readable photo root and a well-formed listing: the
    chronological order of the pictures is strictly increasing (by date, then
    by filename); when no picture of that order has the requested key,
    [getPicture] resolves to nothing and the response is 404, not an error;
    when the picture at position [i] has it, [getPicture] resolves to that
    picture with [previous] the picture at position [i - 1] and [next] the
    one at position [i + 1], and the page is rendered with them; [previous]
    is absent exactly at the first picture of the order and [next] exactly
    at the last. *)
Theorem view_photo_neighbours env req d f l :
  route req = View d f ->
  Validate.isDateFolderName d = true ->
  Validate.isPhotoFilename f = true ->
  pictureFolder env = Some l ->
  WellFormed l ->
  let order := chronological l in
  StronglySorted pictureBefore order
  /\ ((forall p, p ∈ order -> pictureKey p <> (d, f)) ->
        outcome (getPicture (photoManager env) d f) = Resolved None
        /\ respond env req = notFound)
  /\ (forall i p, order !! i = Some p -> pictureKey p = (d, f) ->
        let ph := {| picture := p;
                     previous := match i with O => None | S j => order !! j end;
                     next := order !! S i |} in
        outcome (getPicture (photoManager env) d f) = Resolved (Some ph)
        /\ respond env req
           = RenderView ph (previous ph) (next ph) (absoluteThumbnail env req p)
        /\ (previous ph = None <-> i = O)
        /\ (next ph = None <-> S i = length order)).
Proof.
  intros Hr Hd Hf Hl Hwf order.
  destruct (app_view_valid env req d f l Hr Hd Hf Hl) as [Hget Happ].
  split; [exact (chronological_sorted l Hwf)|]. split.
  - intros Habsent.
    assert (Hnone : findPicture l d f = None).
    { unfold findPicture. apply locate_absent. exact Habsent. }
    unfold respond. rewrite Hget, Happ, Hnone. split; reflexivity.
  - intros i p Hi Hkey ph.
    assert (Hsome : findPicture l d f = Some ph).
    { unfold findPicture. injection Hkey as <- <-.
      apply (locate_at (chronological l) (chronological_keys_NoDup l Hwf) i p None Hi). }
    unfold respond. rewrite Hget, Happ, Hsome.
    split; [reflexivity|]. split; [reflexivity|].
    pose proof (lookup_lt_Some _ _ _ Hi) as Hlt. cbn [previous next ph].
    split.
    + destruct i as [|j]; [split; reflexivity|].
      split; [|discriminate]. intros Hnone.
      apply lookup_ge_None in Hnone. fold order in Hnone. lia.
    + rewrite lookup_ge_None. fold order in Hlt. lia.
Qed.

Lemma view_photo_neighbours_witness :
  exists ph,
    respond Sample.env (Sample.request (View "2023-01-01" "b.jpg"))
    = RenderView ph (previous ph) (next ph)
        "https://photos.example/gallery/thumbnails/2023-01-01/b.jpg"
    /\ pictureKey <$> previous ph = Some ("2023-01-01", "a.jpg")
    /\ pictureKey <$> next ph = Some ("2023-01-03", "c.jpg").
Proof.
  destruct (view_photo_neighbours Sample.env
              (Sample.request (View "2023-01-01" "b.jpg"))
              "2023-01-01" "b.jpg" Sample.listing) as (_ & _ & Hfound).
  - reflexivity.
  - reflexivity.
  - reflexivity.
  - reflexivity.
  - apply (bool_decide_unpack (WellFormed Sample.listing)). vm_compute. exact I.
  - destruct (Hfound 1%nat
                {| PhotoManager.date := DateFolder.make "2023-01-01";
                   PhotoManager.filename := "b.jpg" |})
      as (_ & Hresp & _).
    + vm_compute. reflexivity.
    + reflexivity.
    + eexists. split; [exact Hresp|]. split; vm_compute; reflexivity.
Defined.

End PictureRoute.

Section ThumbnailRoute.

Import PhotoManager Server Notions.

(** What the thumbnail route answers when the thumbnailer fails with [e]. *)
Lemma app_thumbnails_failure env req d f e :
  route req = Thumbnails d f ->
  Validate.isDateFolderName d = true -> Validate.isPhotoFilename f = true ->
  createThumbnailer env d f = Rejected e ->
  app env req =
  ([ThumbnailStore d f],
   if Js.includes "Unable to open file" (message e) then notFound
   else errorMiddleware e).
Proof.
  intros Hr Hd Hf He. unfold app, router. rewrite Hr. unfold thumbnails.
  rewrite (thumbnailsTry_valid env d f Hd Hf).
  unfold thumbnailer, access. rewrite He.
  cbn. unfold thumbnailsCatch.
  destruct (Js.includes "Unable to open file" (message e)); reflexivity.
Qed.

Lemma create_miss st d f :
  Validate.isDateFolderName d = true -> Validate.isPhotoFilename f = true ->
  Thumbnailer.store st !! (d, f) = None ->
  Thumbnailer.create st d f
  = Thumbnailer.generate (Thumbnailer.originals st !! (d, f)).
Proof.
  intros Hd Hf Hmiss. unfold Thumbnailer.create, Thumbnailer.getThumbnail.
  cbn [fst snd]. rewrite Hd, Hf, Hmiss. cbn [andb negb].
  destruct (Thumbnailer.generate _); reflexivity.
Qed.

(** C4: on the thumbnail route, for a key that passes validation: a
    thumbnailer failure whose message reports "Unable to open file" is
    answered 404, and a [ThumbnailError] whose message does not is answered
    500 by the error-handling middleware; with the thumbnailer of the
    specification and no cached thumbnail for the key, an original that is
    missing or cannot be read gives the 404 response, and an original that
    cannot be decoded gives the 500 response, through a [ThumbnailError]. *)
Theorem thumbnail_failure_status env req d f :
  route req = Thumbnails d f ->
  Validate.isDateFolderName d = true ->
  Validate.isPhotoFilename f = true ->
  (forall e, createThumbnailer env d f = Rejected e ->
     (Js.includes "Unable to open file" (message e) = true ->
        respond env req = notFound)
     /\ (Js.includes "Unable to open file" (message e) = false ->
         errorClass e = ThumbnailError ->
         respond env req = generationFailure))
  /\ (forall st,
        createThumbnailer env = Thumbnailer.create st ->
        Thumbnailer.store st !! (d, f) = None ->
        let original := Thumbnailer.originals st !! (d, f) in
        (original = None \/ original = Some Thumbnailer.Unreadable ->
           respond env req = notFound
           /\ status (respond env req) = Some 404%nat)
        /\ (original = Some Thumbnailer.Undecodable ->
            respond env req = generationFailure
            /\ status (respond env req) = Some 500%nat
            /\ exists e, createThumbnailer env d f = Rejected e
                         /\ errorClass e = ThumbnailError)).
Proof.
  intros Hr Hd Hf. split.
  - intros e He. unfold respond.
    rewrite (app_thumbnails_failure env req d f e Hr Hd Hf He). cbn [snd].
    split.
    + intros ->. reflexivity.
    + intros -> Hclass. unfold errorMiddleware, instanceof. rewrite Hclass.
      reflexivity.
  - intros st Hmodel Hmiss original.
    assert (Hout : createThumbnailer env d f = Thumbnailer.generate original).
    { rewrite Hmodel. exact (create_miss st d f Hd Hf Hmiss). }
    split.
    + intros Horig.
      assert (exists e, createThumbnailer env d f = Rejected e
                /\ Js.includes "Unable to open file" (message e) = true)
        as (e & He & Hmsg).
      { rewrite Hout. destruct Horig as [-> | ->]; eexists; split; reflexivity. }
      unfold respond.
      rewrite (app_thumbnails_failure env req d f e Hr Hd Hf He), Hmsg.
      split; reflexivity.
    + intros Horig.
      assert (He : createThumbnailer env d f
                   = Rejected (mkError ThumbnailError
                                 "No decode delegate for this image format")).
      { rewrite Hout, Horig. reflexivity. }
      unfold respond.
      rewrite (app_thumbnails_failure env req d f _ Hr Hd Hf He).
      split; [reflexivity|]. split; [reflexivity|].
      eexists. split; [exact He | reflexivity].
Qed.

Lemma thumbnail_failure_status_witness :
  respond Sample.env (Sample.request (Thumbnails "2023-01-01" "b.jpg"))
  = generationFailure
  /\ respond Sample.env (Sample.request (Thumbnails "2023-01-01" "c.jpg"))
     = notFound
  /\ respond Sample.env (Sample.request (Thumbnails "2023-01-03" "c.jpg"))
     = notFound.
Proof.
  split; [|split].
  - destruct (thumbnail_failure_status Sample.env
                (Sample.request (Thumbnails "2023-01-01" "b.jpg"))
                "2023-01-01" "b.jpg" eq_refl eq_refl eq_refl) as [_ H].
    destruct (H Sample.files eq_refl eq_refl) as [_ Hbad].
    apply Hbad. vm_compute. reflexivity.
  - destruct (thumbnail_failure_status Sample.env
                (Sample.request (Thumbnails "2023-01-01" "c.jpg"))
                "2023-01-01" "c.jpg" eq_refl eq_refl eq_refl) as [_ H].
    destruct (H Sample.files eq_refl eq_refl) as [Hgone _].
    apply Hgone. left. vm_compute. reflexivity.
  - destruct (thumbnail_failure_status Sample.env
                (Sample.request (Thumbnails "2023-01-03" "c.jpg"))
                "2023-01-03" "c.jpg" eq_refl eq_refl eq_refl) as [_ H].
    destruct (H Sample.files eq_refl eq_refl) as [Hgone _].
    apply Hgone. right. vm_compute. reflexivity.
Defined.

End ThumbnailRoute.

(** ** The wiki authentication route *)

Section WikiAuth.

Import PhotoManager Server Notions.

Lemma app_mediaWikiAuth env req :
  route req = MediaWikiAuth ->
  app env req =
  match cookie (userNameCookie env) (cookies req) with
  | None => ([], unauthenticated)
  | Some _ =>
      ([HttpGet (preferencesUrl env)],
       match wiki env (preferencesUrl env) (concatCookies (cookies req)) with
       | Resolved r =>
           if (length (redirectHistory r) =? 0)%nat
              && negb (Js.includes "Special%3AUserLogin" (requestPath r))
           then authenticated else unauthenticated
       | Rejected e => errorMiddleware e
       end)
  end.
Proof.
  intros Hr. unfold app, router. rewrite Hr.
  unfold mediaWikiAuth, mediaWikiAuthTry, userNameCookie.
  destruct (cookie _ (cookies req)) as [v|]; [|reflexivity].
  unfold verifyMediaWikiAuth, preferencesUrl, access.
  destruct (wiki env _ _) as [r | e]; [|reflexivity].
  cbn. destruct ((length (redirectHistory r) =? 0)%nat
                 && negb (Js.includes "Special%3AUserLogin" (requestPath r)));
    reflexivity.
Qed.

Lemma errorMiddleware_not_authenticated e : errorMiddleware e <> authenticated.
Proof.
  unfold errorMiddleware. destruct (instanceof e ValidationError);
    [discriminate|]. destruct (instanceof e ThumbnailError); discriminate.
Qed.

(** X1: on the wiki authentication route, the answer is 200 "Authenticated"
    exactly when the request carries the user-name cookie and the wiki
    answers the request for its preferences page without any redirect and
    without ending on the login page; without the user-name cookie the
    answer is 401 and the wiki is not contacted at all; with it the wiki is
    contacted exactly once, at the preferences URL; and when that request
    fails, the failure goes to the error-handling middleware. *)
Theorem mediaWikiAuth_verdict env req :
  route req = MediaWikiAuth ->
  (respond env req = authenticated <->
     exists v r,
       cookie (userNameCookie env) (cookies req) = Some v
       /\ wiki env (preferencesUrl env) (concatCookies (cookies req)) = Resolved r
       /\ redirectHistory r = []
       /\ Js.includes "Special%3AUserLogin" (requestPath r) = false)
  /\ (cookie (userNameCookie env) (cookies req) = None ->
        accesses env req = [] /\ respond env req = unauthenticated)
  /\ (forall v, cookie (userNameCookie env) (cookies req) = Some v ->
        accesses env req = [HttpGet (preferencesUrl env)]
        /\ (forall r,
              wiki env (preferencesUrl env) (concatCookies (cookies req)) = Resolved r ->
              respond env req = authenticated \/ respond env req = unauthenticated)
        /\ (forall e,
              wiki env (preferencesUrl env) (concatCookies (cookies req)) = Rejected e ->
              respond env req = errorMiddleware e)).
Proof.
  intros Hr. unfold respond, accesses. rewrite (app_mediaWikiAuth env req Hr).
  destruct (cookie (userNameCookie env) (cookies req)) as [v|] eqn:Hc.
  - split; [|split].
    + cbn [snd].
      destruct (wiki env (preferencesUrl env) (concatCookies (cookies req)))
        as [r | e] eqn:Hw.
      * destruct (redirectHistory r) as [|h hs] eqn:Hh; cbn [length Nat.eqb andb].
        -- destruct (Js.includes "Special%3AUserLogin" (requestPath r)) eqn:Hi;
             cbn [negb].
           ++ split; [discriminate|]. intros (v' & r' & _ & [= <-] & _ & Hi').
              congruence.
           ++ split; [|reflexivity]. intros _. exists v, r. auto.
        -- split; [discriminate|]. intros (v' & r' & _ & [= <-] & Hh' & _).
           congruence.
      * split.
        -- intros H. destruct (errorMiddleware_not_authenticated e H).
        -- intros (v' & r' & _ & [=] & _).
    + discriminate.
    + intros v' _. cbn [fst snd]. split; [reflexivity|]. split.
      * intros r ->.
        destruct ((length (redirectHistory r) =? 0)%nat
                  && negb (Js.includes "Special%3AUserLogin" (requestPath r)));
          [left | right]; reflexivity.
      * intros e ->. reflexivity.
  - split; [|split].
    + cbn [snd]. split; [discriminate|]. intros (v & r & [=] & _).
    + intros _. split; reflexivity.
    + intros v [=].
Qed.

Lemma mediaWikiAuth_verdict_witness :
  accesses Sample.env (Sample.request MediaWikiAuth) = []
  /\ respond Sample.env (Sample.request MediaWikiAuth) = unauthenticated.
Proof.
  apply (mediaWikiAuth_verdict Sample.env (Sample.request MediaWikiAuth));
    reflexivity.
Defined.

Lemma append_assoc (a b c : string) : (a +:+ b) +:+ c = a +:+ (b +:+ c).
Proof.
  induction a as [|x a IH]; [reflexivity|].
  change (String x ((a +:+ b) +:+ c) = String x (a +:+ (b +:+ c))).
  rewrite IH. reflexivity.
Qed.

Lemma prefix_app a b : String.prefix a (a +:+ b) = true.
Proof.
  induction a as [|c a IH].
  - destruct b; reflexivity.
  - change (String c a +:+ b) with (String c (a +:+ b)).
    cbn [String.prefix]. destruct (ascii_dec c c); [exact IH | congruence].
Qed.

Lemma includes_prefix a b : Js.includes a (a +:+ b) = true.
Proof.
  destruct a as [|c a].
  - destruct b; reflexivity.
  - change (String c a +:+ b) with (String c (a +:+ b)).
    cbn [Js.includes].
    change (String c (a +:+ b)) with (String c a +:+ b).
    rewrite prefix_app. reflexivity.
Qed.

Lemma includes_app_r n a h :
  Js.includes n h = true -> Js.includes n (a +:+ h) = true.
Proof.
  intros H. induction a as [|c a IH]; [exact H|].
  change (String c a +:+ h) with (String c (a +:+ h)).
  cbn [Js.includes]. rewrite IH. apply orb_true_r.
Qed.

Lemma concatCookies_app a b :
  concatCookies (a ++ b) = concatCookies a +:+ concatCookies b.
Proof.
  induction a as [|[n v] a IH]; [reflexivity|].
  change (concatCookies (((n, v) :: a) ++ b))
    with (n +:+ "=" +:+ v +:+ ";" +:+ concatCookies (a ++ b)).
  rewrite IH. cbn [concatCookies].
  rewrite !append_assoc. reflexivity.
Qed.

(** X2: the [Cookie] header sent to the wiki is the concatenation of
    [name=value;] for every cookie of the request, in order: the header of
    two lists of cookies is the header of the first followed by the header
    of the second, and every cookie of the request occurs in it. *)
Theorem cookies_forwarded (cs : list (string * string)) :
  (forall a b, cs = a ++ b ->
     concatCookies cs = concatCookies a +:+ concatCookies b)
  /\ (forall n v, (n, v) ∈ cs ->
        Js.includes (n +:+ "=" +:+ v +:+ ";") (concatCookies cs) = true).
Proof.
  split.
  - intros a b ->. apply concatCookies_app.
  - intros n v Hin. apply list_elem_of_split in Hin as (a & b & ->).
    rewrite concatCookies_app. apply includes_app_r.
    cbn [concatCookies].
    replace (n +:+ "=" +:+ v +:+ ";" +:+ concatCookies b)
      with ((n +:+ "=" +:+ v +:+ ";") +:+ concatCookies b).
    + apply includes_prefix.
    + rewrite !append_assoc. reflexivity.
Qed.

End WikiAuth.

(** ** Failures and accesses, route by route *)

Section FailuresAndAccesses.

Import PhotoManager Server Notions.

Lemma errorMiddleware_by_class e :
  errorMiddleware e =
  match errorClass e with
  | ValidationError => notFound
  | ThumbnailError => generationFailure
  | PlainError => Reported e
  end.
Proof. unfold errorMiddleware, instanceof. destruct (errorClass e); reflexivity. Qed.

Ltac rejected_block Hraised :=
  match goal with
  | |- context [mbind ?k ?p] =>
      change (mbind k p) with (andThen p k);
      rewrite (rejection_andThen p k _ Hraised)
  end.

Lemma raised_respond env req e :
  raised env req = Some e ->
  respond env req =
  match route req with
  | Thumbnails _ _ =>
      if Js.includes "Unable to open file" (message e) then notFound
      else errorMiddleware e
  | _ => errorMiddleware e
  end.
Proof.
  intros Hraised. unfold respond, app, router. unfold raised in Hraised.
  destruct (route req) as [ | amount | page | d f | d f];
    [unfold mediaWikiAuth | unfold latest | unfold index | unfold view
     | unfold thumbnails];
    rejected_block Hraised; try reflexivity.
  unfold catch, thumbnailsCatch.
  destruct (Js.includes "Unable to open file" (message e)); reflexivity.
Qed.

(** X3: when the [Promise.try] block of a route is rejected with an error,
    the response is decided by the error-handling middleware from the class
    of the error alone: 404 for a [ValidationError], 500 for a
    [ThumbnailError], and for any other error no response at all, the error
    being reported; except on the thumbnail route, where an error whose
    message contains "Unable to open file" is answered 404 whatever its
    class. *)
Theorem rejection_routing env req e :
  raised env req = Some e ->
  errorMiddleware e
  = match errorClass e with
    | ValidationError => notFound
    | ThumbnailError => generationFailure
    | PlainError => Reported e
    end
  /\ ((forall d f, route req <> Thumbnails d f) ->
        respond env req = errorMiddleware e
        /\ (errorClass e = PlainError -> status (respond env req) = None))
  /\ (forall d f, route req = Thumbnails d f ->
        respond env req =
        if Js.includes "Unable to open file" (message e) then notFound
        else errorMiddleware e).
Proof.
  intros Hraised. pose proof (raised_respond env req e Hraised) as Hresp.
  split; [apply errorMiddleware_by_class|]. split.
  - intros Hroute.
    assert (respond env req = errorMiddleware e) as ->.
    { rewrite Hresp. destruct (route req) as [ | | | | d f]; try reflexivity.
      destruct (Hroute d f eq_refl). }
    split; [reflexivity|]. intros Hc. rewrite errorMiddleware_by_class, Hc.
    reflexivity.
  - intros d f Hr. rewrite Hresp, Hr. reflexivity.
Qed.

Lemma rejection_routing_witness :
  respond sampleUnreadable (Sample.request (Latest None))
  = Reported (mkError PlainError "ENOENT: no such file or directory, scandir").
Proof.
  destruct (rejection_routing sampleUnreadable
              (Sample.request (Latest None))
              (mkError PlainError "ENOENT: no such file or directory, scandir")
              eq_refl) as (_ & H & _).
  apply H. intros d f. discriminate.
Defined.

Lemma app_thumbnails_valid env req d f :
  route req = Thumbnails d f ->
  Validate.isDateFolderName d = true -> Validate.isPhotoFilename f = true ->
  app env req =
  ([ThumbnailStore d f],
   match createThumbnailer env d f with
   | Resolved stream => Pipe stream
   | Rejected e =>
       if Js.includes "Unable to open file" (message e) then notFound
       else errorMiddleware e
   end).
Proof.
  intros Hr Hd Hf. unfold app, router. rewrite Hr. unfold thumbnails.
  rewrite (thumbnailsTry_valid env d f Hd Hf). unfold thumbnailer, access.
  destruct (createThumbnailer env d f) as [stream | e]; [reflexivity|].
  cbn. unfold thumbnailsCatch.
  destruct (Js.includes "Unable to open file" (message e)); reflexivity.
Qed.

(** X4: on the thumbnail route, for a date and a filename that pass
    validation, the thumbnailer is called exactly once, for that date and
    filename; when it yields a stream the response is that stream, piped
    unchanged; when it fails the response is 404 if the message contains
    "Unable to open file" and what the error-handling middleware decides
    otherwise; a stream is never answered 404 or 500. *)
Theorem thumbnails_streams_result env req d f :
  route req = Thumbnails d f ->
  Validate.isDateFolderName d = true ->
  Validate.isPhotoFilename f = true ->
  accesses env req = [ThumbnailStore d f]
  /\ (forall stream, createThumbnailer env d f = Resolved stream ->
        respond env req = Pipe stream
        /\ status (respond env req) = Some 200%nat)
  /\ (forall e, createThumbnailer env d f = Rejected e ->
        respond env req =
        if Js.includes "Unable to open file" (message e) then notFound
        else errorMiddleware e)
  /\ (forall stream, respond env req = Pipe stream ->
        createThumbnailer env d f = Resolved stream).
Proof.
  intros Hr Hd Hf. unfold accesses, respond.
  rewrite (app_thumbnails_valid env req d f Hr Hd Hf). cbn [fst snd].
  split; [reflexivity|]. split; [|split].
  - intros stream ->. split; reflexivity.
  - intros e ->. reflexivity.
  - intros stream. destruct (createThumbnailer env d f) as [s | e].
    + intros [= ->]. reflexivity.
    + destruct (Js.includes "Unable to open file" (message e)); [discriminate|].
      rewrite errorMiddleware_by_class. destruct (errorClass e); discriminate.
Qed.

Lemma thumbnails_streams_result_witness :
  accesses Sample.env (Sample.request (Thumbnails "2023-01-01" "a.jpg"))
  = [ThumbnailStore "2023-01-01" "a.jpg"]
  /\ respond Sample.env (Sample.request (Thumbnails "2023-01-01" "a.jpg"))
     = Pipe "thumbnail of a".
Proof.
  destruct (thumbnails_streams_result Sample.env
              (Sample.request (Thumbnails "2023-01-01" "a.jpg"))
              "2023-01-01" "a.jpg" eq_refl eq_refl eq_refl) as (Ha & Hs & _).
  split; [exact Ha|]. apply (Hs "thumbnail of a"). vm_compute. reflexivity.
Defined.

Lemma indexThen_trace page dates : trace (indexThen page dates) = [].
Proof.
  unfold indexThen.
  destruct (Js.lt _ _ || Js.gt _ _); reflexivity.
Qed.

Lemma accesses_view_valid env req d f :
  route req = View d f ->
  Validate.isDateFolderName d = true -> Validate.isPhotoFilename f = true ->
  accesses env req = [ReadCatalog].
Proof.
  intros Hr Hd Hf. unfold accesses, app, router. rewrite Hr. unfold view.
  rewrite (viewTry_valid env d f Hd Hf), getPicture_run.
  cbn [photoManager photoPath]. destruct (pictureFolder env) as [l|];
    [|reflexivity].
  cbn. destruct (findPicture l d f); reflexivity.
Qed.

Lemma accesses_latest_accepted env req amount :
  route req = Latest amount -> acceptedParam amount = true ->
  accesses env req = [ReadCatalog].
Proof.
  intros Hr Ha. unfold accesses.
  rewrite (app_latest_accepted env req amount Hr Ha). reflexivity.
Qed.

Lemma accesses_index_accepted env req page :
  route req = Index page -> acceptedParam page = true ->
  accesses env req = [ReadCatalog].
Proof.
  intros Hr Ha. unfold accesses, app, router. rewrite Hr. unfold index.
  rewrite (indexTry_accepted env page Ha), getPaginated_run.
  cbn [photoManager photoPath]. destruct (pictureFolder env) as [l|];
    [|reflexivity].
  change (mbind (indexThen page) ([ReadCatalog], Resolved ?d))
    with (andThen ([ReadCatalog], Resolved d) (indexThen page)).
  unfold andThen.
  pose proof (indexThen_trace page
    (paginatedDatesWithPictures
       {| photoPath := Some l;
          PhotoManager.paginationThreshold := paginationThreshold (config env) |} l))
    as Ht.
  destruct (indexThen page _) as [t [r | e]]; cbn [trace fst] in Ht; subst t;
    reflexivity.
Qed.

(** X5: a request reaches for at most one resource, the one of its route:
    the wiki's preferences page on the authentication route, the catalog on
    the listing, latest and picture routes, the thumbnailer (for the
    requested date and filename) on the thumbnail route; and it reaches for
    none exactly when its parameters are refused by validation or, on the
    authentication route, when the user-name cookie is missing. *)
Theorem one_access_per_request env req :
  (accesses env req = [] \/ accesses env req = [resource env (route req)])
  /\ (accesses env req = [] <->
      malformed (route req) = true
      \/ (route req = MediaWikiAuth
          /\ cookie (userNameCookie env) (cookies req) = None)).
Proof.
  destruct (malformed (route req)) eqn:Hbad.
  - destruct (malformed_raises env req Hbad) as (e & Hraised & Hclass).
    assert (Hacc : accesses env req = []).
    { unfold accesses, app, router. unfold malformed in Hbad.
      unfold raised in Hraised.
      destruct (route req) as [ | [s|] | [s|] | d f | d f]; try discriminate;
        apply negb_true_iff in Hbad.
      - unfold latest. rewrite (latestTry_refused env s Hbad). reflexivity.
      - unfold index. rewrite (indexTry_refused env s Hbad). reflexivity.
      - apply andb_false_iff in Hbad. unfold view.
        destruct (viewTry_invalid env d f Hbad) as [msg ->]. reflexivity.
      - apply andb_false_iff in Hbad. unfold thumbnails.
        destruct (thumbnailsTry_invalid env d f Hbad) as [msg ->].
        cbn. unfold thumbnailsCatch.
        destruct (Js.includes "Unable to open file" _); reflexivity. }
    split; [left; exact Hacc|]. split; [intros _; left; reflexivity|].
    intros _. exact Hacc.
  - unfold malformed in Hbad.
    destruct (route req) as [ | amount | page | d f | d f] eqn:Hr.
    + unfold accesses. rewrite (app_mediaWikiAuth env req Hr).
      destruct (cookie (userNameCookie env) (cookies req)) as [v|]; cbn [fst].
      * split; [right; reflexivity|]. split; [discriminate|].
        intros [[=] | [_ [=]]].
      * split; [left; reflexivity|]. split; [|reflexivity].
        intros _. right. split; reflexivity.
    + assert (Ha : acceptedParam amount = true).
      { destruct amount as [s|]; [|reflexivity].
        apply negb_false_iff in Hbad. exact Hbad. }
      rewrite (accesses_latest_accepted env req amount Hr Ha).
      split; [right; reflexivity|]. split; [discriminate|].
      intros [[=] | [[=] _]].
    + assert (Ha : acceptedParam page = true).
      { destruct page as [s|]; [|reflexivity].
        apply negb_false_iff in Hbad. exact Hbad. }
      rewrite (accesses_index_accepted env req page Hr Ha).
      split; [right; reflexivity|]. split; [discriminate|].
      intros [[=] | [[=] _]].
    + apply negb_false_iff, andb_prop in Hbad as [Hd Hf].
      rewrite (accesses_view_valid env req d f Hr Hd Hf).
      split; [right; reflexivity|]. split; [discriminate|].
      intros [[=] | [[=] _]].
    + apply negb_false_iff, andb_prop in Hbad as [Hd Hf].
      unfold accesses. rewrite (app_thumbnails_valid env req d f Hr Hd Hf).
      cbn [fst]. split; [right; reflexivity|]. split; [discriminate|].
      intros [[=] | [[=] _]].
Qed.

End FailuresAndAccesses.

(** ** The earlier revision against the current one *)

Section Revisions.

Import PhotoManager Server Notions.

Lemma isDigits_default_1 : Js.isDigits (Js.ToString (Js.Num (Js.Int 1))) = true.
Proof. vm_compute. reflexivity. Qed.

(** The earlier page callback is the current one behind the digit test. *)
Lemma old_indexThen page dates :
  ServerOld.indexThen page dates =
  if acceptedParam page then indexThen page dates else resolve notFound.
Proof.
  unfold ServerOld.indexThen, indexThen, acceptedParam, Validate.isNumber.
  destruct page as [s|].
  - cbn [Js.param Js.defaultValue Js.notNullish Js.ToString].
    destruct (Js.isDigits s); reflexivity.
  - cbn [Js.param Js.defaultValue Js.notNullish].
    rewrite isDigits_default_1. reflexivity.
Qed.

Lemma old_index_run env page :
  ServerOld.index env page =
  match pictureFolder env with
  | Some l =>
      ([ReadCatalog],
       outcome (ServerOld.indexThen page
                  (paginatedDatesWithPictures (ServerOld.photoManager env) l)))
  | None =>
      ([ReadCatalog],
       Rejected (mkError PlainError "ENOENT: no such file or directory, scandir"))
  end.
Proof.
  unfold ServerOld.index. rewrite getPaginated_run.
  cbn [ServerOld.photoManager photoPath].
  destruct (pictureFolder env) as [l|]; [|reflexivity].
  change (mbind (ServerOld.indexThen page) ([ReadCatalog], Resolved ?d))
    with (andThen ([ReadCatalog], Resolved d) (ServerOld.indexThen page)).
  unfold andThen, outcome.
  fold (ServerOld.photoManager env).
  pose proof (old_indexThen page
                (paginatedDatesWithPictures (ServerOld.photoManager env) l)) as H.
  pose proof (indexThen_trace page
                (paginatedDatesWithPictures (ServerOld.photoManager env) l)) as Ht.
  destruct (ServerOld.indexThen page _) as [t r]. cbn [snd].
  destruct (acceptedParam page).
  - rewrite <- H in Ht. cbn [trace fst] in Ht. subst t. reflexivity.
  - injection H as -> _. reflexivity.
Qed.

Lemma indexThen_accepted_outcome page (dates : list (list DateEntry)) :
  acceptedParam page = true ->
  outcome (indexThen page dates) =
  Resolved
    (if ((requestedPage page =? 0) || (N.of_nat (length dates) <? requestedPage page))%N
     then notFound
     else RenderIndex (dates !! (N.to_nat (requestedPage page) - 1)%nat)
            (Js.Int (Z.of_N (requestedPage page))) (length dates)).
Proof.
  intros Ha. rewrite (indexThen_accepted page dates Ha).
  destruct ((requestedPage page =? 0) || _)%N; reflexivity.
Qed.

(** X6: the page route of the earlier revision reads the catalog before it
    looks at the page parameter: every request scans the photo root exactly
    once, also one with a malformed page; with a readable root the answer is
    404 when the parameter is not a string of digits or denotes a number
    outside 1..totalPages, and the requested page otherwise (the first page
    when the parameter is absent); with an unreadable root the scan error is
    reported whatever the parameter, malformed or not. *)
Theorem old_index_scans_first env page :
  fst (ServerOld.app env (ServerOld.Index page)) = [ReadCatalog]
  /\ (forall l, pictureFolder env = Some l ->
        let dates := paginatedDatesWithPictures (ServerOld.photoManager env) l in
        let n := requestedPage page in
        snd (ServerOld.app env (ServerOld.Index page)) =
        Some (ServerOld.Common
                (if match page with Some s => Js.isDigits s | None => true end
                    && (1 <=? n)%N && (n <=? N.of_nat (length dates))%N
                 then RenderIndex (dates !! (N.to_nat n - 1)%nat)
                        (Js.Int (Z.of_N n)) (length dates)
                 else notFound)))
  /\ (pictureFolder env = None ->
        snd (ServerOld.app env (ServerOld.Index page)) =
        Some (ServerOld.Common
                (Reported (mkError PlainError
                             "ENOENT: no such file or directory, scandir")))).
Proof.
  unfold ServerOld.app, ServerOld.router. rewrite old_index_run.
  destruct (pictureFolder env) as [l|].
  - set (dates := paginatedDatesWithPictures (ServerOld.photoManager env) l).
    assert (Hout :
      outcome (ServerOld.indexThen page dates) =
      Resolved
        (if match page with Some s => Js.isDigits s | None => true end
            && (1 <=? requestedPage page)%N
            && (requestedPage page <=? N.of_nat (length dates))%N
         then RenderIndex (dates !! (N.to_nat (requestedPage page) - 1)%nat)
                (Js.Int (Z.of_N (requestedPage page))) (length dates)
         else notFound)).
    { rewrite old_indexThen.
      change (match page with Some s => Js.isDigits s | None => true end)
        with (acceptedParam page).
      destruct (acceptedParam page) eqn:Ha; [|reflexivity].
      rewrite (indexThen_accepted_outcome page dates Ha). f_equal.
      destruct (N.eqb_spec (requestedPage page) 0);
        destruct (N.ltb_spec (N.of_nat (length dates)) (requestedPage page));
        destruct (N.leb_spec 1 (requestedPage page));
        destruct (N.leb_spec (requestedPage page) (N.of_nat (length dates)));
        cbn [orb andb]; try reflexivity; lia. }
    rewrite Hout. cbn. split; [reflexivity|]. split; [|discriminate].
    intros l' [= <-]. reflexivity.
  - cbn. split; [reflexivity|]. split; [intros l [=]|]. intros _. reflexivity.
Qed.

Lemma old_index_scans_first_witness :
  ServerOld.app sampleUnreadable (ServerOld.Index (Some "x1"))
  = ([ReadCatalog],
     Some (ServerOld.Common
             (Reported (mkError PlainError
                          "ENOENT: no such file or directory, scandir")))).
Proof.
  destruct (old_index_scans_first sampleUnreadable (Some "x1")) as (Ht & _ & Hn).
  specialize (Hn eq_refl).
  destruct (ServerOld.app sampleUnreadable (ServerOld.Index (Some "x1"))) as [t r].
  cbn [fst snd] in Ht, Hn. subst. reflexivity.
Defined.

(** X7: with the page size configured to 10, the page size the earlier
    revision has built in, and a readable photo root, both revisions give
    the same response to every page parameter, present or not, well-formed
    or not; they differ in what they touch: for a parameter the validator
    refuses the current revision answers without reading the catalog, the
    earlier one reads it first; and with an unreadable root such a request
    is answered 404 by the current revision and reported as a failure by
    the earlier one. *)
Theorem index_old_new_agree env req page :
  route req = Index page ->
  paginationThreshold (config env) = 10%nat ->
  (forall l, pictureFolder env = Some l ->
     snd (ServerOld.app env (ServerOld.Index page))
     = Some (ServerOld.Common (respond env req)))
  /\ (acceptedParam page = true ->
        accesses env req = fst (ServerOld.app env (ServerOld.Index page)))
  /\ (acceptedParam page = false ->
        accesses env req = []
        /\ fst (ServerOld.app env (ServerOld.Index page)) = [ReadCatalog]
        /\ (pictureFolder env = None ->
              respond env req = notFound
              /\ exists e,
                   snd (ServerOld.app env (ServerOld.Index page))
                   = Some (ServerOld.Common (Reported e)))).
Proof.
  intros Hr Hsize.
  assert (Hpm : ServerOld.photoManager env = photoManager env).
  { unfold ServerOld.photoManager, photoManager. rewrite Hsize. reflexivity. }
  destruct (old_index_scans_first env page) as (Hscan & Hsome & Hnone).
  split; [|split].
  - intros l Hl. unfold ServerOld.app, ServerOld.router.
    rewrite old_index_run, Hl, old_indexThen, Hpm. unfold respond.
    destruct (acceptedParam page) eqn:Ha.
    + rewrite (app_index_accepted env req page l Hr Ha Hl).
      rewrite (indexThen_accepted_outcome page _ Ha). reflexivity.
    + destruct page as [s|]; [|discriminate].
      rewrite (app_index_refused env req s Hr Ha). reflexivity.
  - intros Ha. rewrite Hscan. apply (accesses_index_accepted env req page Hr Ha).
  - intros Ha. destruct page as [s|]; [|discriminate].
    pose proof (app_index_refused env req s Hr Ha) as Happ.
    unfold accesses, respond. rewrite Happ.
    split; [reflexivity|]. split; [exact Hscan|].
    intros Hn. split; [reflexivity|]. eexists. exact (Hnone Hn).
Qed.

Lemma index_old_new_agree_witness :
  snd (ServerOld.app sampleTen (ServerOld.Index (Some "0")))
  = Some (ServerOld.Common
            (respond sampleTen (Sample.request (Index (Some "0"))))).
Proof.
  destruct (index_old_new_agree sampleTen
              (Sample.request (Index (Some "0"))) (Some "0") eq_refl eq_refl)
    as (H & _).
  apply (H Sample.listing). reflexivity.
Defined.

(** X8: on the thumbnail route the two revisions make the same accesses and
    give the same response, except for a failure that is a [ThumbnailError]
    whose message does not contain "Unable to open file": the current
    revision answers it 500, the earlier one, whose error-handling middleware
    knows no [ThumbnailError], reports it and sends no response. *)
Theorem thumbnails_old_new env req d f :
  route req = Thumbnails d f ->
  fst (ServerOld.app env (ServerOld.Thumbnails d f)) = accesses env req
  /\ ((forall e, raised env req = Some e -> errorClass e = ThumbnailError ->
         Js.includes "Unable to open file" (message e) = true) ->
      snd (ServerOld.app env (ServerOld.Thumbnails d f))
      = Some (ServerOld.Common (respond env req)))
  /\ (forall e, raised env req = Some e -> errorClass e = ThumbnailError ->
        Js.includes "Unable to open file" (message e) = false ->
        respond env req = generationFailure
        /\ snd (ServerOld.app env (ServerOld.Thumbnails d f))
           = Some (ServerOld.Common (Reported e))).
Proof.
  intros Hr. unfold accesses, respond, app, router, raised. rewrite Hr.
  unfold ServerOld.app, ServerOld.router, ServerOld.thumbnails, thumbnails.
  change (mbind thumbnailsThen (thumbnailsTry env d f))
    with (andThen (thumbnailsTry env d f) thumbnailsThen).
  unfold rejection, outcome.
  destruct (thumbnailsTry env d f) as [t [stream | e]].
  - cbn. rewrite ?app_nil_r.
    split; [reflexivity|]. split; [reflexivity|]. intros e [=].
  - cbn. unfold thumbnailsCatch.
    destruct (Js.includes "Unable to open file" (message e)) eqn:Hi; cbn.
    + rewrite ?app_nil_r. split; [reflexivity|]. split; [reflexivity|].
      intros e' [= <-] _ Hi'. congruence.
    + rewrite ?app_nil_r. split; [reflexivity|].
      unfold errorMiddleware, ServerOld.errorMiddleware, instanceof.
      destruct (errorClass e) eqn:Hc; cbn.
      * split; [reflexivity|]. intros e' [= <-]. congruence.
      * split.
        -- intros H. specialize (H e eq_refl Hc). congruence.
        -- intros e' [= <-] _ _. split; reflexivity.
      * split; [reflexivity|]. intros e' [= <-]. congruence.
Qed.

Lemma thumbnails_old_new_witness :
  respond Sample.env (Sample.request (Thumbnails "2023-01-01" "b.jpg"))
  = generationFailure
  /\ snd (ServerOld.app Sample.env (ServerOld.Thumbnails "2023-01-01" "b.jpg"))
     = Some (ServerOld.Common
               (Reported (mkError ThumbnailError
                            "No decode delegate for this image format"))).
Proof.
  destruct (thumbnails_old_new Sample.env
              (Sample.request (Thumbnails "2023-01-01" "b.jpg"))
              "2023-01-01" "b.jpg" eq_refl) as (_ & _ & H).
  apply (H (mkError ThumbnailError "No decode delegate for this image format"));
    vm_compute; reflexivity.
Defined.

(** X9: whenever the page route of the current revision renders the listing,
    the page it hands to the template exists: the page parameter was absent
    or accepted, the photo root was readable, [currentPage] is a number
    between 1 and [totalPages], [totalPages] is the number of pages of the
    catalog, and [dates] is the page at that position, never undefined. *)
Theorem index_render_in_range env req page d c t :
  route req = Index page ->
  respond env req = RenderIndex d c t ->
  acceptedParam page = true
  /\ exists l pg,
       pictureFolder env = Some l
       /\ t = length (paginatedDatesWithPictures (photoManager env) l)
       /\ c = Js.Int (Z.of_N (requestedPage page))
       /\ (1 <= requestedPage page <= N.of_nat t)%N
       /\ d = Some pg
       /\ paginatedDatesWithPictures (photoManager env) l
            !! (N.to_nat (requestedPage page) - 1)%nat = Some pg.
Proof.
  intros Hr Hresp. unfold respond in Hresp.
  destruct (acceptedParam page) eqn:Ha.
  - split; [reflexivity|].
    destruct (pictureFolder env) as [l|] eqn:Hl.
    + rewrite (app_index_accepted env req page l Hr Ha Hl) in Hresp.
      cbn [snd] in Hresp.
      set (dates := paginatedDatesWithPictures (photoManager env) l) in *.
      destruct (N.eqb_spec (requestedPage page) 0) as [E | E];
        [discriminate|].
      destruct (N.ltb_spec (N.of_nat (length dates)) (requestedPage page))
        as [E' | E']; [discriminate|].
      cbn [orb] in Hresp. injection Hresp as <- <- <-.
      destruct (lookup_lt_is_Some_2 dates (N.to_nat (requestedPage page) - 1))
        as [pg Hpg]; [lia|].
      exists l, pg. repeat split; try assumption; try reflexivity; lia.
    + exfalso. revert Hresp. unfold app, router. rewrite Hr. unfold index.
      rewrite (indexTry_accepted env page Ha), getPaginated_run.
      cbn [photoManager photoPath]. rewrite Hl. cbn. discriminate.
  - destruct page as [s|]; [|discriminate].
    rewrite (app_index_refused env req s Hr Ha) in Hresp. discriminate.
Qed.

Lemma index_render_in_range_witness :
  exists l pg,
    Server.pictureFolder Sample.env = Some l
    /\ 2%nat = length (paginatedDatesWithPictures (photoManager Sample.env) l)
    /\ paginatedDatesWithPictures (photoManager Sample.env) l !! 0%nat = Some pg.
Proof.
  destruct (index_render_in_range Sample.env (Sample.request (Index None)) None
              (paginatedDatesWithPictures (photoManager Sample.env) Sample.listing
                 !! 0%nat)
              (Js.Int 1) 2 eq_refl)
    as (_ & l & pg & Hl & Ht & _ & _ & _ & Hpg).
  - vm_compute. reflexivity.
  - exists l, pg. split; [exact Hl|]. split; [exact Ht | exact Hpg].
Defined.

(** X13: on the picture route the two revisions make the same accesses and
    give the same answer for every date and filename, valid or not, found or
    not, with a readable photo root or not: the same picture with the same
    previous and next pictures, 404 for a refused parameter or a picture
    that is not there, the scan error reported; the current revision only
    adds the absolute thumbnail address to the rendered page. *)
Theorem view_old_new env req d f :
  route req = View d f ->
  ServerOld.app env (ServerOld.View d f)
  = (accesses env req, Some (withoutAbsoluteThumbnail (respond env req))).
Proof.
  intros Hr. unfold accesses, respond, app, router. rewrite Hr.
  unfold ServerOld.app, ServerOld.router, ServerOld.view, view.
  unfold ServerOld.viewTry, viewTry.
  unfold Validate.validateDateFolderName, Validate.validatePhotoFilename.
  rewrite !getPicture_run. cbn [ServerOld.photoManager photoManager photoPath].
  destruct (Validate.isDateFolderName d); [|reflexivity].
  destruct (Validate.isPhotoFilename f); [|reflexivity].
  destruct (pictureFolder env) as [l|]; [|reflexivity].
  cbn. destruct (findPicture l d f); reflexivity.
Qed.

Lemma view_old_new_witness :
  ServerOld.app Sample.env (ServerOld.View "2023-01-01" "zz.jpg")
  = ([ReadCatalog], Some (ServerOld.Common notFound)).
Proof.
  rewrite (view_old_new Sample.env
             (Sample.request (View "2023-01-01" "zz.jpg"))
             "2023-01-01" "zz.jpg" eq_refl).
  vm_compute. reflexivity.
Defined.

End Revisions.

(** ** Routing *)

Section Routing.

Import PhotoManager Notions Routes.

Lemma includes_slash_cons c seg :
  Ascii.eqb c "/" = false -> Js.includes "/" seg = false ->
  Js.includes "/" (String c seg) = false.
Proof.
  intros Hc Hseg. cbn [Js.includes String.prefix].
  destruct (ascii_dec "/" c) as [<- | _]; [discriminate Hc|].
  exact Hseg.
Qed.

Lemma split_segments_no_slash s :
  Forall (fun seg => Js.includes "/" seg = false) (split s).
Proof.
  induction s as [|c s IH]; cbn [split].
  - repeat constructor.
  - destruct (Ascii.eqb c "/") eqn:Hc.
    + constructor; [reflexivity | exact IH].
    + destruct (split s) as [|seg segs].
      * constructor; [|constructor].
        apply includes_slash_cons; [exact Hc | reflexivity].
      * apply Forall_cons in IH as [Hseg Hsegs].
        constructor; [|exact Hsegs].
        apply includes_slash_cons; assumption.
Qed.

Lemma dropLastEmpty_Forall (P : string -> Prop) segs :
  Forall P segs -> Forall P (dropLastEmpty segs).
Proof.
  induction 1 as [|s rest Hs Hrest IH]; [constructor|].
  cbn [dropLastEmpty]. destruct rest as [|s' rest'].
  - destruct (isEmpty s); repeat constructor. exact Hs.
  - constructor; [exact Hs | exact IH].
Qed.

Lemma segments_no_slash path segs :
  segments path = Some segs ->
  Forall (fun seg => Js.includes "/" seg = false) segs.
Proof.
  unfold segments. destruct path as [|c rest]; [discriminate|].
  destruct (Ascii.eqb_spec c "/") as [-> | Hne].
  - intros [= <-]. apply dropLastEmpty_Forall, split_segments_no_slash.
  - destruct c as [[] [] [] [] [] [] [] []]; try discriminate.
    destruct Hne. reflexivity.
Qed.

(** A route path stands for the regular expression the framework makes of
    it; these are the parsed paths of the two tables. *)
Ltac parse_table :=
  change (parsePattern "/mediaWikiAuth") with [Lit "mediaWikiAuth"] in *;
  change (parsePattern "/latest") with [Lit "latest"] in *;
  change (parsePattern "/:page?") with [Optional "page"] in *;
  change (parsePattern "/view/:date/:filename")
    with [Lit "view"; Param "date"; Param "filename"] in *;
  change (parsePattern "/thumbnails/:date/:filename")
    with [Lit "thumbnails"; Param "date"; Param "filename"] in *.

Ltac split_ifs :=
  repeat match goal with
  | H : context [if ?b then _ else _] |- _ => destruct b eqn:?
  end.

Ltac finish_route :=
  unfold clean;
  repeat match goal with
  | |- _ /\ _ => split
  | |- exists _, _ => eexists; split; [reflexivity|]
  | |- _ => first [assumption | reflexivity]
  end.

(** X10: in the current revision, for a request path without percent
    escapes: a parameter handed to a route is never empty and never
    contains a slash; the page route never receives the words [latest] or
    [mediaWikiAuth] (in any letter case) as a page, because those routes
    are registered before it; and a route is only reached by a path of as
    many segments as its pattern has. *)
Theorem routed_params_clean path amount r :
  dispatch path amount = To r ->
  exists segs,
    segments path = Some segs
    /\ match r with
       | Server.MediaWikiAuth =>
           exists s, segs = [s] /\ equalsIgnoreCase s "mediaWikiAuth" = true
       | Server.Latest a =>
           a = amount
           /\ exists s, segs = [s] /\ equalsIgnoreCase s "latest" = true
       | Server.Index None => segs = []
       | Server.Index (Some s) =>
           segs = [s] /\ clean s
           /\ equalsIgnoreCase s "latest" = false
           /\ equalsIgnoreCase s "mediaWikiAuth" = false
       | Server.View d f =>
           (exists v, segs = [v; d; f] /\ equalsIgnoreCase v "view" = true)
           /\ clean d /\ clean f
       | Server.Thumbnails d f =>
           (exists v, segs = [v; d; f] /\ equalsIgnoreCase v "thumbnails" = true)
           /\ clean d /\ clean f
       end.
Proof.
  unfold dispatch, dispatchWith.
  destruct (segments path) as [segs|] eqn:Hsegs; [|discriminate].
  pose proof (segments_no_slash path segs Hsegs) as Hslash.
  destruct (forallb plain segs); [|discriminate].
  intros H. exists segs. split; [reflexivity|].
  unfold table in H. cbn [firstMatch] in H. parse_table.
  destruct segs as [|a [|b [|c [|x segs]]]]; cbn [matchPattern] in H.
  - cbn in H. injection H as <-. reflexivity.
  - apply Forall_cons in Hslash as [Ha _].
    split_ifs; cbn in H; try discriminate; injection H as <-; finish_route.
  - split_ifs; cbn in H; discriminate.
  - apply Forall_cons in Hslash as [_ Hslash].
    apply Forall_cons in Hslash as [Hb Hslash].
    apply Forall_cons in Hslash as [Hc _].
    split_ifs; cbn in H; try discriminate; injection H as <-; finish_route.
  - split_ifs; cbn in H; discriminate.
Qed.

Lemma routed_params_clean_witness :
  exists segs,
    segments "/view/2023-01-01/a.jpg/" = Some segs
    /\ (exists v, segs = [v; "2023-01-01"; "a.jpg"]
                  /\ equalsIgnoreCase v "view" = true)
    /\ clean "2023-01-01" /\ clean "a.jpg".
Proof.
  apply (routed_params_clean "/view/2023-01-01/a.jpg/" None
           (Server.View "2023-01-01" "a.jpg")).
  vm_compute. reflexivity.
Defined.

Lemma latest_word_not_digits s :
  equalsIgnoreCase s "latest" = true -> Js.isDigits s = false.
Proof.
  destruct s as [|c s]; [discriminate|]. cbn [equalsIgnoreCase].
  intros H. apply andb_prop in H as [Hc _]. cbn [Js.isDigits Js.allChars].
  destruct (Js.isDigit c) eqn:Hd; [|reflexivity]. exfalso.
  destruct c as [b0 b1 b2 b3 b4 b5 b6 b7].
  destruct b0, b1, b2, b3, b4, b5, b6, b7; try discriminate Hd;
    vm_compute in Hc; discriminate Hc.
Qed.

(** X11: in the earlier revision the page route is registered before the
    route for the latest pictures and takes every path of one segment: no
    request path at all is routed to the latest handler; a request for
    [/latest] (in any letter case, with or without a trailing slash) goes to
    the page route with the page parameter set to that word and, the photo
    root being readable, is answered 404 after a scan of the catalog; in the
    current revision the same path reaches the latest handler. *)
Theorem old_latest_shadowed path amount :
  (forall r, dispatchOld path amount = To r ->
     forall a, r <> ServerOld.Latest a)
  /\ (forall seg,
        segments path = Some [seg] -> plain seg = true ->
        equalsIgnoreCase seg "latest" = true ->
        dispatch path amount = To (Server.Latest amount)
        /\ dispatchOld path amount = To (ServerOld.Index (Some seg))
        /\ forall env l, Server.pictureFolder env = Some l ->
             ServerOld.app env (ServerOld.Index (Some seg))
             = ([ReadCatalog], Some (ServerOld.Common Server.notFound))).
Proof.
  split.
  - intros r H a ->. revert H. unfold dispatchOld, dispatchWith.
    destruct (segments path) as [segs|]; [|discriminate].
    destruct (forallb plain segs); [|discriminate].
    unfold tableOld. cbn [firstMatch]. parse_table. intros H.
    destruct segs as [|x [|b [|c [|y segs]]]]; cbn [matchPattern] in H;
      split_ifs; cbn in H; try discriminate H.
    (* an empty segment is not the word "latest" *)
    destruct x; discriminate.
  - intros seg Hsegs Hplain Hword.
    assert (Hne : isEmpty seg = false).
    { destruct seg; [discriminate Hword | reflexivity]. }
    assert (Hauth : equalsIgnoreCase seg "mediaWikiAuth" = false).
    { destruct seg as [|c seg]; [reflexivity|].
      cbn [equalsIgnoreCase] in Hword |- *.
      apply andb_prop in Hword as [Hc _].
      destruct (Ascii.eqb (lower c) (lower "m")) eqn:Hm; [|reflexivity].
      apply Ascii.eqb_eq in Hc, Hm. rewrite Hc in Hm.
      vm_compute in Hm. discriminate Hm. }
    split; [|split].
    + unfold dispatch, dispatchWith. rewrite Hsegs. cbn [forallb].
      rewrite Hplain. unfold table. cbn [firstMatch andb]. parse_table.
      cbn [matchPattern]. rewrite Hauth, Hword. reflexivity.
    + unfold dispatchOld, dispatchWith. rewrite Hsegs. cbn [forallb].
      rewrite Hplain. unfold tableOld. cbn [firstMatch andb]. parse_table.
      cbn [matchPattern]. rewrite Hne. reflexivity.
    + intros env l Hl. unfold ServerOld.app, ServerOld.router.
      rewrite old_index_run, Hl, old_indexThen.
      cbn [acceptedParam]. unfold Validate.isNumber.
      rewrite (latest_word_not_digits seg Hword). reflexivity.
Qed.

Lemma old_latest_shadowed_witness :
  dispatch "/latest" (Some "2") = To (Server.Latest (Some "2"))
  /\ dispatchOld "/latest" (Some "2") = To (ServerOld.Index (Some "latest"))
  /\ ServerOld.app Sample.env (ServerOld.Index (Some "latest"))
     = ([ReadCatalog], Some (ServerOld.Common Server.notFound)).
Proof.
  destruct (old_latest_shadowed "/latest" (Some "2")) as [_ H].
  destruct (H "latest" eq_refl eq_refl eq_refl) as (H1 & H2 & H3).
  split; [exact H1|]. split; [exact H2|].
  apply (H3 Sample.env Sample.listing). reflexivity.
Defined.

(** Links *)

Lemma no_slash_cons c s :
  Js.includes "/" (String c s) = false ->
  Ascii.eqb c "/" = false /\ Js.includes "/" s = false.
Proof.
  cbn [Js.includes String.prefix]. intros H.
  apply orb_false_iff in H as [Hp Hs]. split; [|exact Hs].
  destruct (Ascii.eqb_spec c "/") as [-> | _]; [|reflexivity].
  destruct (ascii_dec "/" "/") as [_ | Hne]; [|destruct Hne; reflexivity].
  destruct s; discriminate Hp.
Qed.

Lemma split_one s : Js.includes "/" s = false -> split s = [s].
Proof.
  induction s as [|c s IH]; [reflexivity|]. intros H.
  apply no_slash_cons in H as [Hc Hs]. cbn [split]. rewrite Hc, (IH Hs).
  reflexivity.
Qed.

Lemma split_app s t :
  Js.includes "/" s = false -> split (s +:+ String "/" t) = s :: split t.
Proof.
  induction s as [|c s IH]; intros H.
  - reflexivity.
  - apply no_slash_cons in H as [Hc Hs].
    change (String c s +:+ String "/" t) with (String c (s +:+ String "/" t)).
    cbn [split]. rewrite Hc, (IH Hs). reflexivity.
Qed.

Lemma allChars_excludes (p : ascii -> bool) c s :
  Js.allChars p s = true -> p c = false -> Js.includes (String c "") s = false.
Proof.
  intros Hall Hc. destruct (Js.includes (String c "") s) eqn:Hi; [|reflexivity].
  rewrite (includes_char c "" s p Hi Hc) in Hall. discriminate.
Qed.

Lemma linkable_facts s :
  linkable s = true ->
  isEmpty s = false /\ Js.includes "/" s = false /\ plain s = true.
Proof.
  unfold linkable, plain. intros H. apply andb_prop in H as [Hne Hall].
  apply negb_true_iff in Hne. split; [exact Hne|]. split.
  - exact (allChars_excludes isUnreserved "/" s Hall eq_refl).
  - rewrite (allChars_excludes isUnreserved "%" s Hall eq_refl). reflexivity.
Qed.

Lemma allChars_impl (p q : ascii -> bool) s :
  (forall c, p c = true -> q c = true) ->
  Js.allChars p s = true -> Js.allChars q s = true.
Proof.
  intros Hpq. induction s as [|c s IH]; [reflexivity|]. cbn [Js.allChars].
  intros H. apply andb_prop in H as [Hc Hs]. rewrite (Hpq c Hc), (IH Hs).
  reflexivity.
Qed.

(** The identifiers the validators accept can stand in a link as they are. *)
Lemma valid_key_linkable d f :
  Validate.isDateFolderName d = true -> Validate.isPhotoFilename f = true ->
  linkable d = true /\ linkable f = true.
Proof.
  intros Hd Hf. split.
  - unfold linkable. apply andb_true_intro. split.
    + apply isDateFolderName_shape in Hd as (?&?&?&?&?&?&?&?&->&_). reflexivity.
    + apply isDateFolderName_chars in Hd. revert Hd. apply allChars_impl.
      intros c. unfold isDateChar, isUnreserved. intros H.
      apply orb_prop in H as [-> | H]; [reflexivity|].
      rewrite H. rewrite !orb_true_r. reflexivity.
  - unfold Validate.isPhotoFilename in Hf. unfold linkable.
    destruct f as [|c f]; [discriminate|].
    apply andb_prop in Hf as [Hall _]. apply andb_true_intro.
    split; [reflexivity|]. revert Hall. apply allChars_impl.
    intros x. unfold Validate.isSafeChar, isUnreserved. intros H.
    repeat (apply orb_prop in H as [H | H]); rewrite H;
      rewrite ?orb_true_r; reflexivity.
Qed.

Lemma dispatch_three (word d f : string) amount h r :
  linkable d = true -> linkable f = true ->
  Js.includes "/" word = false -> plain word = true ->
  firstMatch table [word; d; f] = Some (h, [("date", d); ("filename", f)]) ->
  route h [("date", d); ("filename", f)] amount = To r ->
  dispatch (String "/" (word +:+ String "/" (d +:+ String "/" f))) amount = To r.
Proof.
  intros Hd Hf Hw Hpw Hmatch Hroute.
  apply linkable_facts in Hd as (Hde & Hds & Hdp).
  apply linkable_facts in Hf as (Hfe & Hfs & Hfp).
  unfold dispatch, dispatchWith, segments.
  rewrite (split_app word _ Hw), (split_app d f Hds), (split_one f Hfs).
  cbn [dropLastEmpty]. rewrite Hfe. cbn [forallb].
  rewrite Hpw, Hdp, Hfp. cbn [andb]. rewrite Hmatch. exact Hroute.
Qed.

(** X12: the links of an entry of the latest pictures lead back to the
    picture: for a picture whose date key and filename are not empty and
    consist of unreserved characters (as every key the validators accept
    does), the entry's [url] is the path prefix followed by a path that the
    router takes to the picture route with that date and filename, its
    [thumbnail] is the prefix followed by a path that goes to the thumbnail
    route with them, and the absolute thumbnail address of the picture page
    is protocol, host and that same [thumbnail]. *)
Theorem latest_links_route_back env req p amount :
  linkable (DateFolder.date (date p)) = true ->
  linkable (filename p) = true ->
  (exists path,
     Server.url (Server.latestEntry env p)
     = Server.pathPrefix (Server.config env) +:+ path
     /\ dispatch path amount
        = To (Server.View (DateFolder.date (date p)) (filename p)))
  /\ (exists path,
        Server.thumbnail (Server.latestEntry env p)
        = Server.pathPrefix (Server.config env) +:+ path
        /\ dispatch path amount
           = To (Server.Thumbnails (DateFolder.date (date p)) (filename p)))
  /\ Server.absoluteThumbnail env req p
     = Server.protocol req +:+ "://" +:+ Server.host req
       +:+ Server.thumbnail (Server.latestEntry env p)
  /\ Server.filename (Server.latestEntry env p) = filename p.
Proof.
  intros Hd Hf.
  pose proof (linkable_facts _ Hd) as (Hde & _ & _).
  pose proof (linkable_facts _ Hf) as (Hfe & _ & _).
  split; [|split; [|split; reflexivity]].
  - exists ("/view/" +:+ DateFolder.date (date p) +:+ "/" +:+ filename p).
    split; [reflexivity|].
    apply (dispatch_three "view" _ _ amount view); try assumption; try reflexivity.
    unfold table. cbn [firstMatch]. parse_table. cbn [matchPattern].
    rewrite Hde, Hfe. reflexivity.
  - exists ("/thumbnails/" +:+ DateFolder.date (date p) +:+ "/" +:+ filename p).
    split; [reflexivity|].
    apply (dispatch_three "thumbnails" _ _ amount thumbnails);
      try assumption; try reflexivity.
    unfold table. cbn [firstMatch]. parse_table. cbn [matchPattern].
    rewrite Hde, Hfe. reflexivity.
Qed.

Lemma latest_links_route_back_witness :
  exists path,
    Server.url (Server.latestEntry Sample.env
                  {| date := DateFolder.make "2023-01-03"; filename := "c.jpg" |})
    = "/gallery" +:+ path
    /\ dispatch path None = To (Server.View "2023-01-03" "c.jpg").
Proof.
  destruct (latest_links_route_back Sample.env (Sample.request Server.MediaWikiAuth)
              {| date := DateFolder.make "2023-01-03"; filename := "c.jpg" |}
              None eq_refl eq_refl) as (H & _).
  exact H.
Defined.

End Routing.

(** ** Evaluation on the sample catalog *)

Example parseInt_12px : Js.parseInt (Js.Str " 12px") = Js.Int 12.
Proof. reflexivity. Qed.

Example parseInt_hex : Js.parseInt (Js.Str "-0x1f") = Js.Int (-31).
Proof. reflexivity. Qed.

Example parseInt_abc : Js.parseInt (Js.Str "abc") = Js.NaN.
Proof. reflexivity. Qed.

Example slice_first : Js.slice [1; 2; 3; 4; 5] (Js.Int 0) (Js.Int 3) = [1; 2; 3].
Proof. reflexivity. Qed.

Example slice_negative :
  Js.slice [1; 2; 3; 4; 5] (Js.Int 0) (Js.Int (-1)) = [1; 2; 3; 4].
Proof. reflexivity. Qed.

Example toNumber_007 : Js.ToNumber (Js.Str " 007 ") = Some (Js.Int 7).
Proof. reflexivity. Qed.

(** Two pages of one date each; the date without pictures is on none. *)
Example sample_pages :
  map (map (fun e => DateFolder.date (PhotoManager.folder e)))
      (PhotoManager.paginatedDatesWithPictures
         (Server.photoManager Sample.env) Sample.listing)
  = [["2023-01-03"]; ["2023-01-01"]].
Proof. vm_compute. reflexivity. Qed.

(** The two most recent pictures, whatever the empty date in between. *)
Example sample_latest_two :
  map Notions.pictureKey
      (Server.latestSelection (PhotoManager.allPictures Sample.listing) (Some "2"))
  = [("2023-01-03", "c.jpg"); ("2023-01-01", "b.jpg")].
Proof. vm_compute. reflexivity. Qed.

Example sample_thumbnail_cached :
  Server.app Sample.env (Sample.request (Server.Thumbnails "2023-01-01" "a.jpg"))
  = ([ThumbnailStore "2023-01-01" "a.jpg"], Server.Pipe "thumbnail of a").
Proof. vm_compute. reflexivity. Qed.

Example sample_page_zero :
  Server.app Sample.env (Sample.request (Server.Index (Some "0")))
  = ([ReadCatalog], Server.notFound).
Proof. vm_compute. reflexivity. Qed.
